(** * RateMyStore server: authentication, registration, rating and admin handlers

    A shallow embedding of the Express handlers of the RateMyStore server
    (middleware [verifyToken] and [requireRole], the controllers
    [registerUser], [loginUser], [changePassword], [createUser],
    [updateUser], [deleteUserByAdmin], [createRating], [deleteRating],
    [deleteStore], and the pagination arithmetic of the listings) and the
    proofs of the properties stated about them.

    JavaScript objects are finite maps from property names to values, the
    database tables are finite maps from primary keys to rows, and the
    libraries the handlers call (jsonwebtoken, bcrypt, Joi's e-mail rule,
    the referential actions of the Prisma schema) are the fields of a
    [Platform] record that every handler takes as its first argument. *)

From Stdlib Require Import Ascii ZArith Lia DecimalString.
From stdpp Require Import base strings gmap list option.

Local Open Scope Z_scope.
Local Open Scope string_scope.

(** ** JavaScript values *)

(** A JSON-like value. [undefined] is not a constructor: a value that may be
    undefined has type [option jsval] and [None] stands for [undefined].
    Numbers are the integral ones, which are the only ones the handlers
    accept or produce. *)
#[warnings="-register-all"]
Inductive jsval : Type :=
  | JNull
  | JBool (b : bool)
  | JNum (z : Z)
  | JStr (s : string)
  | JObj (fields : gmap string jsval).

(** Property access [v.k] on a value that is not [undefined] or [null]. *)
Definition prop (k : string) (v : jsval) : option jsval :=
  match v with
  | JObj fields => fields !! k
  | _ => None
  end.

(** JavaScript truthiness, as tested by [!x] and [x ? a : b]. *)
Definition truthy (v : option jsval) : bool :=
  match v with
  | None => false
  | Some JNull => false
  | Some (JBool b) => b
  | Some (JNum z) => negb (Z.eqb z 0)
  | Some (JStr s) => negb (String.eqb s "")
  | Some (JObj _) => true
  end.

(** [s.split(sep)] for a one-character separator: the fields between the
    separators, empty fields kept. *)
Fixpoint split (sep : ascii) (s : string) : list string :=
  match s with
  | EmptyString => [EmptyString]
  | String c rest =>
      if Ascii.eqb c sep then EmptyString :: split sep rest
      else match split sep rest with
           | w :: ws => String c w :: ws
           | [] => [String c EmptyString]
           end
  end.

(** [{ message: m }], the body of most responses. *)
Definition message (m : string) : jsval := JObj {[ "message" := JStr m ]}.

(** ** The database

    A table is a finite map from the primary key [id] to the other columns
    of the row. The columns kept are the ones the handlers below name. *)

Record UserRow : Type := {
  user_name : string;
  user_email : string;
  user_password : string;
  user_address : option string;
  user_role : string;
  user_createdAt : Z;
}.

Record StoreRow : Type := {
  store_name : string;
  store_ownerId : Z;
}.

Record RatingRow : Type := {
  rating_userId : Z;
  rating_storeId : Z;
  rating_value : Z;
}.

(** The tables and the next value of the two autoincrement sequences the
    handlers draw from. *)
Record DB : Type := {
  users : gmap Z UserRow;
  stores : gmap Z StoreRow;
  ratings : gmap Z RatingRow;
  user_seq : Z;
  rating_seq : Z;
}.

(** ** The platform: libraries and configuration outside the handlers *)

Record Platform : Type := {
  (** [jwt.sign(payload, secret, { expiresIn })] at a given time; [None]
      when the call throws. *)
  jwt_sign : jsval -> option string -> string -> Z -> option string;
  (** [jwt.verify(token, secret)] at a given time: the decoded payload, or
      [None] when the call throws (malformed, mis-signed or expired). *)
  jwt_verify : string -> option string -> Z -> option jsval;
  (** [bcrypt.hash(password, rounds)]. *)
  bcrypt_hash : string -> Z -> string;
  (** Joi's [email()] rule. *)
  joi_email : string -> bool;
  (** Joi's conversion of a string to a number, [None] when it is refused. *)
  joi_number : string -> option Z;
  (** The text of a Joi error, from its code and the key it is about. *)
  joi_message : string -> string -> string;
  (** The referential action of the schema on the stores and ratings that
      refer to a user who is deleted: the two tables after it, or [None]
      when the action refuses the deletion. *)
  on_delete_user :
    Z -> gmap Z StoreRow -> gmap Z RatingRow ->
    option (gmap Z StoreRow * gmap Z RatingRow);
}.

(** [process.env] and the clock. *)
Record Env : Type := {
  JWT_SECRET : option string;
  JWT_EXPIRES_IN : option string;
  now : Z;
}.

(** ** Requests and handler outcomes *)

(** The parts of an Express request that the handlers read, and [req.user],
    which [verifyToken] writes. *)
Record Req : Type := {
  req_authorization : option string;
  req_params_id : string;
  req_body : jsval;
  req_user : option jsval;
}.

Definition set_user (req : Req) (v : jsval) : Req :=
  {| req_authorization := req_authorization req;
     req_params_id := req_params_id req;
     req_body := req_body req;
     req_user := Some v |}.

(** A handler either answers with [res.status(s).json(b)] or, for a
    middleware, hands over with [next()]. *)
Inductive Outcome : Type :=
  | Respond (status : Z) (body : jsval)
  | Next.

(** The status and the [message] of a response. *)
Definition response_status (out : Outcome) : option Z :=
  match out with
  | Respond status _ => Some status
  | Next => None
  end.

Definition response_message (out : Outcome) : option jsval :=
  match out with
  | Respond _ body => prop "message" body
  | Next => None
  end.

(** A call that either returns or throws. *)
Inductive result (A : Type) : Type :=
  | Returns (a : A)
  | Throws.
Arguments Returns {A} a.
Arguments Throws {A}.

(** ** Prisma queries on the user table *)

Definition int32 (z : Z) : Prop := - 2 ^ 31 <= z < 2 ^ 31.

#[global] Instance int32_dec (z : Z) : Decision (int32 z).
Proof. unfold int32. apply _. Defined.

(** An argument for an [Int] column: Prisma throws unless it is a number
    that fits 32 bits; [undefined] is refused as well, since a unique
    lookup needs its key. *)
Definition int_arg (v : option jsval) : result Z :=
  match v with
  | Some (JNum z) => if bool_decide (int32 z) then Returns z else Throws
  | _ => Throws
  end.

(** [prisma.user.findUnique({ where: { id } })]. *)
Definition user_findUnique_id (db : DB) (id : option jsval)
  : result (option (Z * UserRow)) :=
  match int_arg id with
  | Returns z => Returns (pair z <$> users db !! z)
  | Throws => Throws
  end.

(** The first row of a table that satisfies a predicate, with its key. *)
Definition find_row {A : Type} (p : A -> bool) (t : gmap Z A) : option (Z * A) :=
  snd <$> list_find (fun kv => p (snd kv) = true) (map_to_list t).

(** [prisma.user.findUnique({ where: { email } })]. *)
Definition user_findUnique_email (db : DB) (email : string) : option (Z * UserRow) :=
  find_row (fun u => String.eqb (user_email u) email) (users db).

(** [select: { id: true, email: true, name: true, role: true }]. *)
Definition select_auth (id : Z) (u : UserRow) : jsval :=
  JObj {[ "id" := JNum id;
          "email" := JStr (user_email u);
          "name" := JStr (user_name u);
          "role" := JStr (user_role u) ]}.

(** ** The authentication middleware *)

(** The library and database calls [verifyToken] makes, in order. *)
Inductive Call : Type :=
  | CallJwtVerify (token : string)
  | CallUserFindUnique (id : option jsval).

Record VerifyResult : Type := {
  vr_calls : list Call;
  vr_req : Req;
  vr_out : Outcome;
}.

(** [req.headers.authorization?.split(" ")[1]]. *)
Definition bearer_token (req : Req) : option string :=
  match req_authorization req with
  | Some h => split " " h !! 1%nat
  | None => None
  end.

(** The identifiers bound at the top level of the middleware module. Its
    only [require] is that of jsonwebtoken: [prisma] is not among them. *)
Definition middleware_scope : list string :=
  ["jwt"; "verifyToken"; "requireRole"].

(** The identifiers in scope in the [try] block of [verifyToken]: those of
    the module, the parameters and the constants of the function. Node's
    globals ([process], [require], [module] and the like) are in scope as
    well; [prisma] is not one of them either. *)
Definition verifyToken_scope : list string :=
  middleware_scope ++ ["req"; "res"; "next"; "token"; "decoded"; "user"].

(** A reference to the identifier [x]: a [ReferenceError] when [x] is not
    bound. *)
Definition reference (scope : list string) (x : string) : result unit :=
  if bool_decide (x ∈ scope) then Returns tt else Throws.

(** [req.user = decoded] is done before the lookup, and the lookup starts by
    evaluating [prisma]; whatever is thrown inside the [try] block is
    answered by its [catch]. *)
Definition verifyToken (P : Platform) (env : Env) (db : DB) (req : Req)
  : VerifyResult :=
  match bearer_token req with
  | None | Some EmptyString =>
      {| vr_calls := []; vr_req := req;
         vr_out := Respond 401 (message "Unauthorized.") |}
  | Some token =>
      match jwt_verify P token (JWT_SECRET env) (now env) with
      | None =>
          {| vr_calls := [CallJwtVerify token]; vr_req := req;
             vr_out := Respond 401 (message "Invalid token.") |}
      | Some decoded =>
          let req1 := set_user req decoded in
          match reference verifyToken_scope "prisma" with
          | Throws =>
              {| vr_calls := [CallJwtVerify token]; vr_req := req1;
                 vr_out := Respond 401 (message "Invalid token.") |}
          | Returns _ =>
              let calls :=
                [CallJwtVerify token;
                 CallUserFindUnique (prop "userId" decoded)] in
              match user_findUnique_id db (prop "userId" decoded) with
              | Throws =>
                  {| vr_calls := calls; vr_req := req1;
                     vr_out := Respond 401 (message "Invalid token.") |}
              | Returns None =>
                  {| vr_calls := calls; vr_req := req1;
                     vr_out := Respond 401 (message "User not found") |}
              | Returns (Some (id, u)) =>
                  {| vr_calls := calls;
                     vr_req := set_user req (select_auth id u);
                     vr_out := Next |}
              end
          end
      end
  end.

(** [roles.includes(v)] for an array of strings. *)
Definition includes (roles : list string) (v : option jsval) : bool :=
  match v with
  | Some (JStr r) => bool_decide (r ∈ roles)
  | _ => false
  end.

Definition requireRole (roles : list string) (req : Req) : Outcome :=
  if negb (truthy (req_user req)) then
    Respond 401 (message "Authentication required")
  else if negb (includes roles (req_user req ≫= prop "role")) then
    Respond 403 (message "Insufficient permissions")
  else Next.

(** ** Joi schemas *)

Inductive StringRule : Type :=
  | SMin (n : nat)
  | SMax (n : nat)
  | SEmail
  | SPattern (re : string -> bool).

Inductive NumberRule : Type :=
  | NInteger
  | NMin (z : Z)
  | NMax (z : Z).

(** [Joi.string()] with its rules in the order they are chained and the
    values of [valid(...)] when there is one; [Joi.number()] with its rules. *)
Inductive JoiType : Type :=
  | TString (rules : list StringRule) (valid : option (list string))
  | TNumber (rules : list NumberRule).

Record Field : Type := {
  f_type : JoiType;
  f_required : bool;
  f_default : option jsval;
}.

Definition required (t : JoiType) : Field :=
  {| f_type := t; f_required := true; f_default := None |}.
Definition optional (t : JoiType) : Field :=
  {| f_type := t; f_required := false; f_default := None |}.

Definition Schema : Type := list (string * Field).

(** A Joi error: its code ([any.required], [string.min], ...) and the key. *)
Record JoiError : Type := {
  err_code : string;
  err_key : string;
}.

Definition check_string_rule (P : Platform) (s : string) (r : StringRule)
  : option string :=
  match r with
  | SMin n => if (String.length s <? n)%nat then Some "string.min" else None
  | SMax n => if (n <? String.length s)%nat then Some "string.max" else None
  | SEmail => if joi_email P s then None else Some "string.email"
  | SPattern re => if re s then None else Some "string.pattern.base"
  end.

Definition check_number_rule (z : Z) (r : NumberRule) : option string :=
  match r with
  | NInteger => None
  | NMin m => if (z <? m)%Z then Some "number.min" else None
  | NMax m => if (m <? z)%Z then Some "number.max" else None
  end.

(** The code of the first rule that fails, in the order of the rules. *)
Fixpoint first_failure {R : Type} (check : R -> option string) (rules : list R)
  : option string :=
  match rules with
  | [] => None
  | r :: rest =>
      match check r with
      | Some code => Some code
      | None => first_failure check rest
      end
  end.

(** Validation of one present value: the error code, or the value Joi
    returns for the key (a numeric string is converted to its number, and a
    number outside the safe integers is refused). *)
Definition validate_value (P : Platform) (t : JoiType) (v : jsval)
  : string + jsval :=
  match t with
  | TString rules (Some allowed) =>
      match v with
      | JStr s => if bool_decide (s ∈ allowed) then inr v else inl "any.only"
      | _ => inl "any.only"
      end
  | TString rules None =>
      match v with
      | JStr EmptyString => inl "string.empty"
      | JStr s =>
          match first_failure (check_string_rule P s) rules with
          | Some code => inl code
          | None => inr v
          end
      | _ => inl "string.base"
      end
  | TNumber rules =>
      let number :=
        match v with
        | JNum z => Some z
        | JStr s => joi_number P s
        | _ => None
        end in
      match number with
      | None => inl "number.base"
      | Some z =>
          if bool_decide (- (2 ^ 53 - 1) <= z <= 2 ^ 53 - 1) then
            match first_failure (check_number_rule z) rules with
            | Some code => inl code
            | None => inr (JNum z)
            end
          else inl "number.unsafe"
      end
  end.

Arguments validate_value : simpl never.

(** The keys of the schema, in order: a missing key is an error when it is
    required and takes its default otherwise; the first error stops the
    validation. [value] accumulates the object Joi returns. *)
Fixpoint validate_keys (P : Platform) (schema : Schema)
    (input value : gmap string jsval) : JoiError + gmap string jsval :=
  match schema with
  | [] => inr value
  | (k, f) :: rest =>
      match input !! k with
      | None =>
          if f_required f then inl {| err_code := "any.required"; err_key := k |}
          else
            validate_keys P rest input
              (match f_default f with
               | Some d => <[k := d]> value
               | None => value
               end)
      | Some v =>
          match validate_value P (f_type f) v with
          | inl code => inl {| err_code := code; err_key := k |}
          | inr v' => validate_keys P rest input (<[k := v']> value)
          end
      end
  end.

(** The keys of the input that the schema does not declare. Joi reports the
    first of them in the object's own key order; the map keeps no insertion
    order, so it is the first in the map's enumeration here. *)
Definition unknown_keys (schema : Schema) (input : gmap string jsval)
  : list string :=
  filter (fun k => k ∉ schema.*1) (map_to_list input).*1.

(** [schema.validate(body)] for a [Joi.object({...})] schema with the
    default options. *)
Definition validate (P : Platform) (schema : Schema) (body : jsval)
  : JoiError + jsval :=
  match body with
  | JObj input =>
      match validate_keys P schema input input with
      | inl e => inl e
      | inr value =>
          match unknown_keys schema input with
          | k :: _ => inl {| err_code := "object.unknown"; err_key := k |}
          | [] => inr (JObj value)
          end
      end
  | _ => inl {| err_code := "object.base"; err_key := "value" |}
  end.

(** The password pattern
    [^(?=.*[a-z])(?=.*[A-Z])(?=.*\d)(?=.*[@$!%*?&])[A-Za-z\d@$!%*?&]]:
    [.] stops at a line terminator, so the four look-aheads search the
    first line, and only the first character is matched against the final
    class. *)
Definition is_lower (c : ascii) : bool :=
  (97 <=? nat_of_ascii c)%nat && (nat_of_ascii c <=? 122)%nat.
Definition is_upper (c : ascii) : bool :=
  (65 <=? nat_of_ascii c)%nat && (nat_of_ascii c <=? 90)%nat.
Definition is_digit (c : ascii) : bool :=
  (48 <=? nat_of_ascii c)%nat && (nat_of_ascii c <=? 57)%nat.
Definition is_special (c : ascii) : bool :=
  existsb (Ascii.eqb c) (String.list_ascii_of_string "@$!%*?&").
Definition is_line_terminator (c : ascii) : bool :=
  (nat_of_ascii c =? 10)%nat || (nat_of_ascii c =? 13)%nat.

Fixpoint first_line (s : string) : list ascii :=
  match s with
  | EmptyString => []
  | String c rest => if is_line_terminator c then [] else c :: first_line rest
  end.

Definition password_pattern (s : string) : bool :=
  existsb is_lower (first_line s) && existsb is_upper (first_line s)
  && existsb is_digit (first_line s) && existsb is_special (first_line s)
  && match s with
     | String c _ => is_lower c || is_upper c || is_digit c || is_special c
     | EmptyString => false
     end.

Definition registerSchema : Schema :=
  [ ("name", required (TString [SMin 2; SMax 50] None));
    ("email", required (TString [SEmail] None));
    ("password", required (TString [SMin 6; SPattern password_pattern] None));
    ("address", optional (TString [SMax 200] None));
    ("role", {| f_type := TString [] (Some ["ADMIN"; "NORMAL_USER"; "STORE_OWNER"]);
                f_required := false;
                f_default := Some (JStr "NORMAL_USER") |}) ].

Definition loginSchema : Schema :=
  [ ("email", required (TString [SEmail] None));
    ("password", required (TString [] None)) ].

Definition createRatingSchema : Schema :=
  [ ("storeId", required (TNumber [NInteger]));
    ("rating", required (TNumber [NInteger; NMin 1; NMax 5])) ].

(** ** Handlers over the database

    The body of a handler runs against the database and either returns or
    throws; what it wrote before it threw stays written. [try_catch] is the
    handler's [try { ... } catch (error) { ... }]. *)

Definition M (A : Type) : Type := DB -> DB * result A.

Definition ret {A : Type} (a : A) : M A := fun db => (db, Returns a).

Definition throw {A : Type} : M A := fun db => (db, Throws).

Definition bind {A B : Type} (m : M A) (k : A -> M B) : M B :=
  fun db =>
    match m db with
    | (db', Returns a) => k a db'
    | (db', Throws) => (db', Throws)
    end.

Notation "'let*' x := m 'in' k" := (bind m (fun x => k))
  (at level 10, x pattern, m at level 100, k at level 200).

(** A query that reads the database. *)
Definition query {A : Type} (q : DB -> result A) : M A := fun db => (db, q db).

(** A library call. *)
Definition call {A : Type} (r : option A) : M A :=
  fun db => (db, match r with Some a => Returns a | None => Throws end).

Definition try_catch (body : M Outcome) (handler : Outcome) : DB -> DB * Outcome :=
  fun db =>
    match body db with
    | (db', Returns out) => (db', out)
    | (db', Throws) => (db', handler)
    end.

(** ** Prisma arguments and writes *)

(** An argument for a [String] column. *)
Definition str_arg (v : option jsval) : result string :=
  match v with
  | Some (JStr s) => Returns s
  | _ => Throws
  end.

(** An argument for an optional [String?] column in [data]: [undefined] and
    [null] leave the column null. *)
Definition opt_str_arg (v : option jsval) : result (option string) :=
  match v with
  | None | Some JNull => Returns None
  | Some (JStr s) => Returns (Some s)
  | _ => Throws
  end.

(** [prisma.user.findUnique({ where: { email } })] on a value. *)
Definition user_findUnique_email_arg (email : option jsval)
  : M (option (Z * UserRow)) :=
  query (fun db =>
    match str_arg email with
    | Returns e => Returns (user_findUnique_email db e)
    | Throws => Throws
    end).

(** [prisma.user.create({ data })]: the row takes the next id of the
    sequence; the primary key and the unique e-mail are enforced. *)
Definition user_create (row : UserRow) : M Z :=
  fun db =>
    let id := user_seq db in
    match users db !! id, user_findUnique_email db (user_email row) with
    | None, None =>
        ({| users := <[id := row]> (users db);
            stores := stores db;
            ratings := ratings db;
            user_seq := id + 1;
            rating_seq := rating_seq db |}, Returns id)
    | _, _ => (db, Throws)
    end.

Definition json_of_opt_string (s : option string) : jsval :=
  match s with
  | Some a => JStr a
  | None => JNull
  end.

(** ** Registration and login *)

(** [generateToken(userId)]: the payload is [{ userId }], which has no key
    when the argument is [undefined]; the lifetime is
    [process.env.JWT_EXPIRES_IN || "7d"]. *)
Definition generateToken (P : Platform) (env : Env) (userId : option jsval)
  : option string :=
  jwt_sign P
    (JObj match userId with
          | Some v => {[ "userId" := v ]}
          | None => ∅
          end)
    (JWT_SECRET env)
    (match JWT_EXPIRES_IN env with
     | Some EmptyString | None => "7d"
     | Some d => d
     end)
    (now env).

(** [select: { id, name, email, role, address, createdAt }]. *)
Definition select_profile (id : Z) (u : UserRow) : jsval :=
  JObj {[ "id" := JNum id;
          "name" := JStr (user_name u);
          "email" := JStr (user_email u);
          "role" := JStr (user_role u);
          "address" := json_of_opt_string (user_address u);
          "createdAt" := JNum (user_createdAt u) ]}.

(** The data-valued identifiers bound in [registerUser] where the token is
    generated, each with its value or [undefined]. The other identifiers in
    scope there are [req], [res], [error] and the module's top-level
    constants ([PrismaClient], [jwt], [prisma], [bcrypt], [Joi], the three
    schemas, [generateToken] and the four handlers). *)
Definition registerUser_scope (value : jsval) (hashedPassword : string)
    (newUser : jsval) : gmap string (option jsval) :=
  {[ "value" := Some value;
     "name" := prop "name" value;
     "email" := prop "email" value;
     "password" := prop "password" value;
     "address" := prop "address" value;
     "role" := prop "role" value;
     "existingUser" := Some JNull;
     "hashedPassword" := Some (JStr hashedPassword);
     "newUser" := Some newUser ]}.

(** Evaluation of [x.id] for an identifier [x]: a [ReferenceError] when [x]
    is not bound, a [TypeError] when it is [undefined] or [null]. *)
Definition eval_id_of (scope : gmap string (option jsval)) (x : string)
  : result (option jsval) :=
  match scope !! x with
  | None => Throws
  | Some None | Some (Some JNull) => Throws
  | Some (Some v) => Returns (prop "id" v)
  end.

Definition registerUser (P : Platform) (env : Env) (req : Req)
  : DB -> DB * Outcome :=
  try_catch
    match validate P registerSchema (req_body req) with
    | inl e =>
        ret (Respond 400 (message (joi_message P (err_code e) (err_key e))))
    | inr value =>
        let* existingUser := user_findUnique_email_arg (prop "email" value) in
        match existingUser with
        | Some _ =>
            ret (Respond 400 (message "User already exists with this email."))
        | None =>
            let* password := query (fun _ => str_arg (prop "password" value)) in
            let hashedPassword := bcrypt_hash P password 10 in
            let* name := query (fun _ => str_arg (prop "name" value)) in
            let* email := query (fun _ => str_arg (prop "email" value)) in
            let* role := query (fun _ => str_arg (prop "role" value)) in
            let* address := query (fun _ => opt_str_arg (prop "address" value)) in
            let row :=
              {| user_name := name; user_email := email;
                 user_password := hashedPassword; user_address := address;
                 user_role := role; user_createdAt := now env |} in
            let* id := user_create row in
            let newUser := select_profile id row in
            let* userId :=
              query (fun _ =>
                eval_id_of (registerUser_scope value hashedPassword newUser)
                  "user") in
            let* token := call (generateToken P env userId) in
            ret (Respond 201
                   (JObj {[ "message" := JStr "User created successfully.";
                            "newUser" := newUser;
                            "token" := JStr token ]}))
        end
    end
    (Respond 500 (message "Server error creating user.")).

(** [const { password: _, ...userWithoutPassword } = user]. *)
Definition user_without_password (id : Z) (u : UserRow) : jsval :=
  JObj {[ "id" := JNum id;
          "name" := JStr (user_name u);
          "email" := JStr (user_email u);
          "address" := json_of_opt_string (user_address u);
          "role" := JStr (user_role u);
          "createdAt" := JNum (user_createdAt u) ]}.

(** The payload [{ id: user.id, role: user.role }] that [loginUser] signs. *)
Definition login_payload (id : Z) (u : UserRow) : jsval :=
  JObj {[ "id" := JNum id; "role" := JStr (user_role u) ]}.

Definition login_success (token : string) (id : Z) (u : UserRow) : jsval :=
  JObj {[ "message" := JStr "Login successful.";
          "token" := JStr token;
          "user" := user_without_password id u ]}.

Definition loginUser (P : Platform) (env : Env) (req : Req)
  : DB -> DB * Outcome :=
  try_catch
    match validate P loginSchema (req_body req) with
    | inl e =>
        ret (Respond 400 (message (joi_message P (err_code e) (err_key e))))
    | inr value =>
        let* user := user_findUnique_email_arg (prop "email" value) in
        match user with
        | None => ret (Respond 400 (message "Invalid email or password."))
        | Some (id, u) =>
            let* token :=
              call (jwt_sign P (login_payload id u) (JWT_SECRET env) "2d"
                      (now env)) in
            ret (Respond 200 (login_success token id u))
        end
    end
    (Respond 500 (message "Server error during login.")).

(** ** Ratings *)

(** [req.user.id]: a [TypeError] when [req.user] is [undefined] or [null]. *)
Definition req_user_id (req : Req) : result (option jsval) :=
  match req_user req with
  | None | Some JNull => Throws
  | Some u => Returns (prop "id" u)
  end.

(** [n === v] for a number [n]. *)
Definition num_strict_eq (n : Z) (v : option jsval) : bool :=
  match v with
  | Some (JNum z) => Z.eqb n z
  | _ => false
  end.

(** [prisma.store.findUnique({ where: { id } })]. *)
Definition store_findUnique (id : option jsval) : M (option StoreRow) :=
  query (fun db =>
    match int_arg id with
    | Returns z => Returns (stores db !! z)
    | Throws => Throws
    end).

Definition same_pair (userId storeId : Z) (r : RatingRow) : bool :=
  Z.eqb (rating_userId r) userId && Z.eqb (rating_storeId r) storeId.

(** [prisma.rating.findUnique({ where: { userId_storeId: { userId, storeId } } })]. *)
Definition rating_findUnique (userId storeId : option jsval)
  : M (option (Z * RatingRow)) :=
  query (fun db =>
    match int_arg userId, int_arg storeId with
    | Returns u, Returns s => Returns (find_row (same_pair u s) (ratings db))
    | _, _ => Throws
    end).

(** [include: { store: { select: { name } }, user: { select: { name } } }]
    on a rating row. *)
Definition rating_record (db : DB) (id : Z) (r : RatingRow) : jsval :=
  JObj {[ "id" := JNum id;
          "userId" := JNum (rating_userId r);
          "storeId" := JNum (rating_storeId r);
          "rating" := JNum (rating_value r);
          "store" := match stores db !! rating_storeId r with
                     | Some s => JObj {[ "name" := JStr (store_name s) ]}
                     | None => JNull
                     end;
          "user" := match users db !! rating_userId r with
                    | Some u => JObj {[ "name" := JStr (user_name u) ]}
                    | None => JNull
                    end ]}.

Definition with_ratings (db : DB) (t : gmap Z RatingRow) (seq : Z) : DB :=
  {| users := users db; stores := stores db; ratings := t;
     user_seq := user_seq db; rating_seq := seq |}.

Definition set_rating_value (r : RatingRow) (v : Z) : RatingRow :=
  {| rating_userId := rating_userId r;
     rating_storeId := rating_storeId r;
     rating_value := v |}.

(** [prisma.rating.update({ where: { id }, data: { rating, comment } })]
    with [comment] undefined, which leaves every other column as it is. *)
Definition rating_update (id : Z) (rating : option jsval) : M jsval :=
  fun db =>
    match ratings db !! id, int_arg rating with
    | Some r, Returns v =>
        let r' := set_rating_value r v in
        let db' := with_ratings db (<[id := r']> (ratings db)) (rating_seq db) in
        (db', Returns (rating_record db' id r'))
    | _, _ => (db, Throws)
    end.

Definition new_rating (userId storeId rating : Z) : RatingRow :=
  {| rating_userId := userId; rating_storeId := storeId;
     rating_value := rating |}.

(** [prisma.rating.create({ data: { userId, storeId, rating, comment } })]:
    the row takes the next id of the sequence; the primary key, the unique
    pair (userId, storeId) and the two foreign keys are enforced. *)
Definition rating_create (userId storeId rating : option jsval) : M jsval :=
  fun db =>
    match int_arg userId, int_arg storeId, int_arg rating with
    | Returns u, Returns s, Returns v =>
        let id := rating_seq db in
        match ratings db !! id, find_row (same_pair u s) (ratings db),
              users db !! u, stores db !! s with
        | None, None, Some _, Some _ =>
            let r := new_rating u s v in
            let db' := with_ratings db (<[id := r]> (ratings db)) (id + 1) in
            (db', Returns (rating_record db' id r))
        | _, _, _, _ => (db, Throws)
        end
    | _, _, _ => (db, Throws)
    end.

Definition rating_updated (ratingRecord : jsval) : jsval :=
  JObj {[ "message" := JStr "Rating updated successfully";
          "rating" := ratingRecord ]}.

Definition rating_created (ratingRecord : jsval) : jsval :=
  JObj {[ "message" := JStr "Rating created successfully";
          "rating" := ratingRecord ]}.

Definition createRating (P : Platform) (req : Req) : DB -> DB * Outcome :=
  try_catch
    match validate P createRatingSchema (req_body req) with
    | inl e =>
        ret (Respond 400 (message (joi_message P (err_code e) (err_key e))))
    | inr value =>
        let storeId := prop "storeId" value in
        let rating := prop "rating" value in
        let* store := store_findUnique storeId in
        match store with
        | None => ret (Respond 404 (message "Store not found"))
        | Some store =>
            let* userId := query (fun _ => req_user_id req) in
            if num_strict_eq (store_ownerId store) userId then
              ret (Respond 400 (message "You cannot rate your own store"))
            else
              let* userId := query (fun _ => req_user_id req) in
              let* existingRating := rating_findUnique userId storeId in
              match existingRating with
              | Some (id, _) =>
                  let* ratingRecord := rating_update id rating in
                  ret (Respond 200 (rating_updated ratingRecord))
              | None =>
                  let* userId := query (fun _ => req_user_id req) in
                  let* ratingRecord := rating_create userId storeId rating in
                  ret (Respond 201 (rating_created ratingRecord))
              end
        end
    end
    (Respond 500 (message "Internal server error")).

(** ** Deleting a user *)

(** [parseInt(s)]: leading white space, a sign, a [0x] prefix for radix 16,
    then the longest run of digits; [None] is [NaN]. *)
Definition is_space (c : ascii) : bool :=
  existsb (Nat.eqb (nat_of_ascii c)) [9; 10; 11; 12; 13; 32; 160]%nat.

Fixpoint skip_spaces (s : string) : string :=
  match s with
  | String c rest => if is_space c then skip_spaces rest else s
  | EmptyString => s
  end.

Definition digit_value (radix : Z) (c : ascii) : option Z :=
  let n := Z.of_nat (nat_of_ascii c) in
  let d := if is_digit c then Some (n - 48)
           else if (97 <=? n)%Z && (n <=? 102)%Z then Some (n - 87)
           else if (65 <=? n)%Z && (n <=? 70)%Z then Some (n - 55)
           else None in
  match d with
  | Some v => if (v <? radix)%Z then Some v else None
  | None => None
  end.

Fixpoint digits_prefix (radix : Z) (s : string) (acc : option Z) : option Z :=
  match s with
  | String c rest =>
      match digit_value radix c with
      | Some d => digits_prefix radix rest (Some (radix * default 0 acc + d))
      | None => acc
      end
  | EmptyString => acc
  end.

Definition parseInt (s : string) : option Z :=
  let s1 := skip_spaces s in
  let '(sign, s2) :=
    match s1 with
    | String "-" rest => (-1, rest)
    | String "+" rest => (1, rest)
    | _ => (1, s1)
    end in
  let '(radix, s3) :=
    match s2 with
    | String "0" (String "x" rest) | String "0" (String "X" rest) => (16, rest)
    | _ => (10, s2)
    end in
  Z.mul sign <$> digits_prefix radix s3 None.

(** [prisma.user.delete({ where: { id } })]: throws when there is no such
    row or when the schema's referential action refuses. *)
Definition user_delete (P : Platform) (id : option jsval) : M unit :=
  fun db =>
    match int_arg id with
    | Returns z =>
        match users db !! z, on_delete_user P z (stores db) (ratings db) with
        | Some _, Some (st, rt) =>
            ({| users := delete z (users db); stores := st; ratings := rt;
                user_seq := user_seq db; rating_seq := rating_seq db |},
             Returns tt)
        | _, _ => (db, Throws)
        end
    | Throws => (db, Throws)
    end.

Definition deleteUserByAdmin (P : Platform) (req : Req) : DB -> DB * Outcome :=
  try_catch
    (let userId := JNum <$> parseInt (req_params_id req) in
     let* existingUser := query (fun db => user_findUnique_id db userId) in
     match existingUser with
     | None => ret (Respond 404 (message "User not found"))
     | Some _ =>
         let* callerId := query (fun _ => req_user_id req) in
         if match userId with
            | Some (JNum z) => num_strict_eq z callerId
            | _ => false
            end
         then ret (Respond 400 (message "You cannot delete your own account"))
         else
           let* _ := user_delete P userId in
           ret (Respond 200 (message "User deleted successfully"))
     end)
    (Respond 500 (message "Internal server error")).

(** ** Administration of users *)

Definition createUserSchema : Schema :=
  [ ("name", required (TString [SMin 2; SMax 50] None));
    ("email", required (TString [SEmail] None));
    ("password", required (TString [SMin 6; SPattern password_pattern] None));
    ("address", optional (TString [SMax 200] None));
    ("role", required (TString [] (Some ["ADMIN"; "NORMAL_USER"; "STORE_OWNER"]))) ].

Definition updateUserSchema : Schema :=
  [ ("name", optional (TString [SMin 2; SMax 50] None));
    ("email", optional (TString [SEmail] None));
    ("address", optional (TString [SMax 200] None));
    ("role", optional (TString [] (Some ["ADMIN"; "NORMAL_USER"; "STORE_OWNER"]))) ].

Definition user_created (user : jsval) : jsval :=
  JObj {[ "message" := JStr "User created successfully"; "user" := user ]}.

(** [createUser]: the password goes to the table as the body gives it (the
    hashing is commented out in the source). *)
Definition createUser (P : Platform) (env : Env) (req : Req)
  : DB -> DB * Outcome :=
  try_catch
    match validate P createUserSchema (req_body req) with
    | inl e =>
        ret (Respond 400 (message (joi_message P (err_code e) (err_key e))))
    | inr value =>
        let* existingUser := user_findUnique_email_arg (prop "email" value) in
        match existingUser with
        | Some _ =>
            ret (Respond 400 (message "User already exists with this email"))
        | None =>
            let* name := query (fun _ => str_arg (prop "name" value)) in
            let* email := query (fun _ => str_arg (prop "email" value)) in
            let* password := query (fun _ => str_arg (prop "password" value)) in
            let* address := query (fun _ => opt_str_arg (prop "address" value)) in
            let* role := query (fun _ => str_arg (prop "role" value)) in
            let row :=
              {| user_name := name; user_email := email;
                 user_password := password; user_address := address;
                 user_role := role; user_createdAt := now env |} in
            let* id := user_create row in
            ret (Respond 201 (user_created (select_profile id row)))
        end
    end
    (Respond 500 (message "Internal server error")).

(** A [String] column in the [data] of an update: [undefined] keeps the
    value of the row. *)
Definition data_string (old : string) (v : option jsval) : result string :=
  match v with
  | None => Returns old
  | Some (JStr s) => Returns s
  | _ => Throws
  end.

(** A [String?] column in the [data] of an update. *)
Definition data_opt_string (old : option string) (v : option jsval)
  : result (option string) :=
  match v with
  | None => Returns old
  | Some JNull => Returns None
  | Some (JStr s) => Returns (Some s)
  | _ => Throws
  end.

(** [prisma.user.update({ where: { id }, data })]: throws when there is no
    such row or when the e-mail changes to the e-mail of another row. *)
Definition user_update (id : option jsval) (change : UserRow -> result UserRow)
  : M (Z * UserRow) :=
  fun db =>
    match int_arg id with
    | Returns z =>
        match users db !! z with
        | Some u =>
            match change u with
            | Returns u' =>
                match (if String.eqb (user_email u') (user_email u) then None
                       else user_findUnique_email db (user_email u')) with
                | None =>
                    ({| users := <[z := u']> (users db);
                        stores := stores db;
                        ratings := ratings db;
                        user_seq := user_seq db;
                        rating_seq := rating_seq db |}, Returns (z, u'))
                | Some _ => (db, Throws)
                end
            | Throws => (db, Throws)
            end
        | None => (db, Throws)
        end
    | Throws => (db, Throws)
    end.

(** [data: value] for a value of [updateUserSchema]: the four keys it may
    hold; the password, the id and the creation time are not among them. *)
Definition update_user_data (value : jsval) (u : UserRow) : result UserRow :=
  match data_string (user_name u) (prop "name" value),
        data_string (user_email u) (prop "email" value),
        data_opt_string (user_address u) (prop "address" value),
        data_string (user_role u) (prop "role" value) with
  | Returns name, Returns email, Returns address, Returns role =>
      Returns {| user_name := name; user_email := email;
                 user_password := user_password u; user_address := address;
                 user_role := role; user_createdAt := user_createdAt u |}
  | _, _, _, _ => Throws
  end.

(** The columns [phone] and [updatedAt] of a user row, which [UserRow] does
    not keep, as the database returns them after an update. *)
Record UserMore : Type := {
  more_phone : jsval;
  more_updatedAt : jsval;
}.

(** [select: { id, name, email, role, address, phone, updatedAt }]. *)
Definition select_updated (id : Z) (u : UserRow) (more : UserMore) : jsval :=
  JObj {[ "id" := JNum id;
          "name" := JStr (user_name u);
          "email" := JStr (user_email u);
          "role" := JStr (user_role u);
          "address" := json_of_opt_string (user_address u);
          "phone" := more_phone more;
          "updatedAt" := more_updatedAt more ]}.

Definition user_updated (user : jsval) : jsval :=
  JObj {[ "message" := JStr "User updated successfully"; "user" := user ]}.

(** [a !== b] for a validated string [a] and a column [b]. *)
Definition differs_from (v : option jsval) (s : string) : bool :=
  match v with
  | Some (JStr a) => negb (String.eqb a s)
  | _ => true
  end.

Definition updateUser (P : Platform) (more : Z -> UserRow -> UserMore)
    (req : Req) : DB -> DB * Outcome :=
  try_catch
    (let userId := JNum <$> parseInt (req_params_id req) in
     match validate P updateUserSchema (req_body req) with
     | inl e =>
         ret (Respond 400 (message (joi_message P (err_code e) (err_key e))))
     | inr value =>
         let* existingUser := query (fun db => user_findUnique_id db userId) in
         match existingUser with
         | None => ret (Respond 404 (message "User not found"))
         | Some (_, existing) =>
             let* emailExists :=
               if truthy (prop "email" value)
                  && differs_from (prop "email" value) (user_email existing)
               then user_findUnique_email_arg (prop "email" value)
               else ret None in
             match emailExists with
             | Some _ => ret (Respond 400 (message "Email already exists"))
             | None =>
                 let* updated := user_update userId (update_user_data value) in
                 ret (Respond 200
                        (user_updated
                           (select_updated updated.1 updated.2
                              (more updated.1 updated.2))))
             end
         end
     end)
    (Respond 500 (message "Internal server error")).

(** ** Changing the password *)

Definition changePasswordSchema : Schema :=
  [ ("currentPassword", required (TString [] None));
    ("newPassword",
     required (TString [SMin 6; SPattern password_pattern] None)) ].

Definition with_password (hashed : string) (u : UserRow) : UserRow :=
  {| user_name := user_name u; user_email := user_email u;
     user_password := hashed; user_address := user_address u;
     user_role := user_role u; user_createdAt := user_createdAt u |}.

(** [changePassword]; [bcrypt_compare] is [bcrypt.compare(candidate, hash)].
    Reading [user.password] throws when the caller has no row. *)
Definition changePassword (P : Platform) (bcrypt_compare : string -> string -> bool)
    (req : Req) : DB -> DB * Outcome :=
  try_catch
    match validate P changePasswordSchema (req_body req) with
    | inl e =>
        ret (Respond 400 (message (joi_message P (err_code e) (err_key e))))
    | inr value =>
        let* callerId := query (fun _ => req_user_id req) in
        let* user := query (fun db => user_findUnique_id db callerId) in
        match user with
        | None => throw
        | Some (_, u) =>
            let* currentPassword :=
              query (fun _ => str_arg (prop "currentPassword" value)) in
            if negb (bcrypt_compare currentPassword (user_password u)) then
              ret (Respond 400 (message "Current password is incorrect"))
            else
              let* newPassword :=
                query (fun _ => str_arg (prop "newPassword" value)) in
              let hashedNewPassword := bcrypt_hash P newPassword 12 in
              let* callerId := query (fun _ => req_user_id req) in
              let* _ := user_update callerId
                          (fun u => Returns (with_password hashedNewPassword u)) in
              ret (Respond 200 (message "Password changed successfully"))
        end
    end
    (Respond 500 (message "Internal server error")).

(** ** Deleting a store or a rating *)

(** [req.user.role]: a [TypeError] when [req.user] is [undefined] or [null]. *)
Definition req_user_role (req : Req) : result (option jsval) :=
  match req_user req with
  | None | Some JNull => Throws
  | Some u => Returns (prop "role" u)
  end.

(** [v === s] for a string [s]. *)
Definition str_strict_eq (s : string) (v : option jsval) : bool :=
  match v with
  | Some (JStr r) => String.eqb r s
  | _ => false
  end.

(** [prisma.store.delete({ where: { id } })]; [on_delete_store] is the
    referential action of the schema on the ratings of the store: the rating
    table after it, or [None] when it refuses the deletion. *)
Definition store_delete
    (on_delete_store : Z -> gmap Z RatingRow -> option (gmap Z RatingRow))
    (id : option jsval) : M unit :=
  fun db =>
    match int_arg id with
    | Returns z =>
        match stores db !! z, on_delete_store z (ratings db) with
        | Some _, Some rt =>
            ({| users := users db; stores := delete z (stores db);
                ratings := rt; user_seq := user_seq db;
                rating_seq := rating_seq db |}, Returns tt)
        | _, _ => (db, Throws)
        end
    | Throws => (db, Throws)
    end.

(** [deleteStore], in the version that checks [isNaN(storeId)]. *)
Definition deleteStore
    (on_delete_store : Z -> gmap Z RatingRow -> option (gmap Z RatingRow))
    (req : Req) : DB -> DB * Outcome :=
  try_catch
    match parseInt (req_params_id req) with
    | None => ret (Respond 400 (message "Invalid store ID"))
    | Some storeId =>
        let* existingStore := store_findUnique (Some (JNum storeId)) in
        match existingStore with
        | None => ret (Respond 404 (message "Store not found"))
        | Some existingStore =>
            let* role := query (fun _ => req_user_role req) in
            let* forbidden :=
              if negb (str_strict_eq "ADMIN" role) then
                let* callerId := query (fun _ => req_user_id req) in
                ret (negb (num_strict_eq (store_ownerId existingStore) callerId))
              else ret false in
            if forbidden then
              ret (Respond 403 (message "You can only delete your own stores"))
            else
              let* _ := store_delete on_delete_store (Some (JNum storeId)) in
              ret (Respond 200 (message "Store deleted successfully"))
        end
    end
    (Respond 500 (message "Internal server error")).

(** [prisma.rating.findUnique({ where: { id } })]. *)
Definition rating_findUnique_id (id : option jsval) : M (option RatingRow) :=
  query (fun db =>
    match int_arg id with
    | Returns z => Returns (ratings db !! z)
    | Throws => Throws
    end).

(** [prisma.rating.delete({ where: { id } })]. *)
Definition rating_delete (id : option jsval) : M unit :=
  fun db =>
    match int_arg id with
    | Returns z =>
        match ratings db !! z with
        | Some _ =>
            (with_ratings db (delete z (ratings db)) (rating_seq db), Returns tt)
        | None => (db, Throws)
        end
    | Throws => (db, Throws)
    end.

Definition deleteRating (req : Req) : DB -> DB * Outcome :=
  try_catch
    (let ratingId := JNum <$> parseInt (req_params_id req) in
     let* existingRating := rating_findUnique_id ratingId in
     match existingRating with
     | None => ret (Respond 404 (message "Rating not found"))
     | Some existingRating =>
         let* callerId := query (fun _ => req_user_id req) in
         let* forbidden :=
           if negb (num_strict_eq (rating_userId existingRating) callerId) then
             let* role := query (fun _ => req_user_role req) in
             ret (negb (str_strict_eq "ADMIN" role))
           else ret false in
         if forbidden then
           ret (Respond 403 (message "You can only delete your own ratings"))
         else
           let* _ := rating_delete ratingId in
           ret (Respond 200 (message "Rating deleted successfully"))
     end)
    (Respond 500 (message "Internal server error")).

(** ** Pagination

    The arithmetic the listing handlers share. [req.query.page] and
    [req.query.limit] are a string or absent; the numbers are exact while
    they stay below 2^53. *)

(** [parseInt(q) || d]. *)
Definition parse_or (q : option string) (d : Z) : Z :=
  match q ≫= parseInt with
  | Some z => if Z.eqb z 0 then d else z
  | None => d
  end.

Definition page_of (q : option string) : Z := parse_or q 1.
Definition limit_of (q : option string) : Z := parse_or q 10.

(** [(page - 1) * limit]. *)
Definition skip_of (page limit : Z) : Z := (page - 1) * limit.

(** [Math.ceil(total / limit)] for a limit that is not 0. *)
Definition pages_of (total limit : Z) : Z := - ((- total) / limit).

(** The [pagination] object of a listing. *)
Definition pagination (page limit : option string) (total : Z) : jsval :=
  JObj {[ "page" := JNum (page_of page);
          "limit" := JNum (limit_of limit);
          "total" := JNum total;
          "pages" := JNum (pages_of total (limit_of limit)) ]}.

(** ** A reference platform

    Executable stand-ins for the libraries, on which the handlers run on
    concrete requests. A token is [secret.expiry.kind.id.role] in clear: it
    carries the claims of the two payloads the server signs and is accepted
    under the secret it names until its expiry. *)

Definition decimal (z : Z) : string :=
  DecimalString.NilZero.string_of_int (Z.to_int z).

Definition ref_lifetime (expiresIn : string) : option Z :=
  if String.eqb expiresIn "2d" then Some 172800
  else if String.eqb expiresIn "7d" then Some 604800
  else None.

Definition ref_claims (payload : jsval) : option string :=
  match prop "userId" payload, prop "id" payload, prop "role" payload with
  | Some (JNum n), None, None => Some ("u." ++ decimal n ++ ".")
  | None, Some (JNum n), Some (JStr r) => Some ("l." ++ decimal n ++ "." ++ r)
  | _, _, _ => None
  end.

Definition ref_sign (payload : jsval) (secret : option string)
    (expiresIn : string) (t : Z) : option string :=
  match secret, ref_lifetime expiresIn, ref_claims payload with
  | Some (String c k), Some d, Some claims =>
      Some (String c k ++ "." ++ decimal (t + d) ++ "." ++ claims)
  | _, _, _ => None
  end.

Definition ref_verify (token : string) (secret : option string) (t : Z)
  : option jsval :=
  match secret, split "." token with
  | Some k, [k'; e; kind; n; r] =>
      match parseInt e, parseInt n with
      | Some e, Some n =>
          if String.eqb k k' && (t <? e)%Z then
            if String.eqb kind "u" then
              Some (JObj {[ "userId" := JNum n; "exp" := JNum e ]})
            else if String.eqb kind "l" then
              Some (JObj {[ "id" := JNum n; "role" := JStr r; "exp" := JNum e ]})
            else None
          else None
      | _, _ => None
      end
  | _, _ => None
  end.

Definition ref_on_delete (id : Z) (st : gmap Z StoreRow) (rt : gmap Z RatingRow)
  : option (gmap Z StoreRow * gmap Z RatingRow) :=
  match find_row (fun s => Z.eqb (store_ownerId s) id) st,
        find_row (fun r => Z.eqb (rating_userId r) id) rt with
  | None, None => Some (st, rt)
  | _, _ => None
  end.

Definition ref_platform : Platform :=
  {| jwt_sign := ref_sign;
     jwt_verify := ref_verify;
     bcrypt_hash := fun password rounds => "$" ++ decimal rounds ++ "$" ++ password;
     joi_email := fun s => existsb (Ascii.eqb "@") (String.list_ascii_of_string s);
     joi_number := parseInt;
     joi_message := fun code key => key ++ ": " ++ code;
     on_delete_user := ref_on_delete |}.

Definition ref_env : Env :=
  {| JWT_SECRET := Some "s3cret"; JWT_EXPIRES_IN := None; now := 1000 |}.

Definition alice : UserRow :=
  {| user_name := "Alice"; user_email := "alice@example.com";
     user_password := "$10$Passw0rd!"; user_address := None;
     user_role := "NORMAL_USER"; user_createdAt := 10 |}.

Definition bob : UserRow :=
  {| user_name := "Bob"; user_email := "bob@example.com";
     user_password := "$10$S3cure&pw"; user_address := Some "1 Main St";
     user_role := "ADMIN"; user_createdAt := 20 |}.

(** Alice is user 42, Bob user 7 and the owner of store 3, which Alice has
    rated once. *)
Definition ref_db : DB :=
  {| users := {[ 42 := alice; 7 := bob ]};
     stores := {[ 3 := {| store_name := "Corner Shop"; store_ownerId := 7 |};
                  4 := {| store_name := "Bakery"; store_ownerId := 7 |} ]};
     ratings := {[ 1 := {| rating_userId := 42; rating_storeId := 3;
                           rating_value := 4 |} ]};
     user_seq := 43;
     rating_seq := 2 |}.

Definition request (authorization : option string) (id : string) (body : jsval)
    (user : option jsval) : Req :=
  {| req_authorization := authorization; req_params_id := id;
     req_body := body; req_user := user |}.

Definition bearer (token : string) : Req :=
  request (Some ("Bearer " ++ token)) "" (JObj ∅) None.

(** ** Predicates, states and sample data of the statements *)

(** A request that presents no token to [verifyToken]. *)
Definition no_token (req : Req) : Prop :=
  bearer_token req = None \/ bearer_token req = Some "".

(** A header of the form [Bearer <token>]. *)
Definition bearer_form (h : string) : Prop :=
  exists token, token <> "" /\ h = "Bearer " ++ token.

(** Proof steps on the schemas and on the status of answers. *)
Ltac in_schema :=
  repeat first [apply list_elem_of_here | apply list_elem_of_further].

Ltac nodup_keys :=
  apply (bool_decide_unpack _); vm_compute; exact I.

(** The database after [registerUser] has stored a row. *)
Definition with_new_user (db : DB) (row : UserRow) : DB :=
  {| users := <[user_seq db := row]> (users db);
     stores := stores db;
     ratings := ratings db;
     user_seq := user_seq db + 1;
     rating_seq := rating_seq db |}.

(** The row [registerUser] builds from a validated value. *)
Definition registered_row (P : Platform) (env : Env)
    (name email password role : string) (address : option string) : UserRow :=
  {| user_name := name; user_email := email;
     user_password := bcrypt_hash P password 10; user_address := address;
     user_role := role; user_createdAt := now env |}.

Definition register_body (role : option string) : jsval :=
  JObj (let fields : gmap string jsval :=
          {[ "name" := JStr "Mallory";
             "email" := JStr "mallory@example.com";
             "password" := JStr "Passw0rd!" ]} in
        match role with
        | Some r => <["role" := JStr r]> fields
        | None => fields
        end).

Definition mallory (role : string) : UserRow :=
  {| user_name := "Mallory"; user_email := "mallory@example.com";
     user_password := "$10$Passw0rd!"; user_address := None;
     user_role := role; user_createdAt := 1000 |}.

Ltac wrong_status H :=
  apply (f_equal (fun r : DB * Outcome => response_status r.2)) in H;
  discriminate H.

Definition login_body (email password : string) : jsval :=
  JObj {[ "email" := JStr email; "password" := JStr password ]}.

(** No two rows of the rating table have the same user and store. *)
Definition unique_pairs (t : gmap Z RatingRow) : Prop :=
  forall i j r1 r2,
    t !! i = Some r1 -> t !! j = Some r2 ->
    rating_userId r1 = rating_userId r2 ->
    rating_storeId r1 = rating_storeId r2 ->
    i = j.

(** The database in which (user, store) has the rating [v] under [id],
    every other row being as in [db], and the sequence of rating ids is at
    [seq]. *)
Definition rated (db : DB) (id uid sid v seq : Z) : DB :=
  {| users := users db;
     stores := stores db;
     ratings := <[id := {| rating_userId := uid; rating_storeId := sid;
                           rating_value := v |}]> (ratings db);
     user_seq := user_seq db;
     rating_seq := seq |}.

(** A rating as an answer shows it: the row under its id, with the names of
    its store and of its user. *)
Definition rating_json (id uid sid v : Z) (storeName userName : string) : jsval :=
  JObj {[ "id" := JNum id;
          "userId" := JNum uid;
          "storeId" := JNum sid;
          "rating" := JNum v;
          "store" := JObj {[ "name" := JStr storeName ]};
          "user" := JObj {[ "name" := JStr userName ]} ]}.

Definition rate (storeId rating : Z) (user : option jsval) : Req :=
  request None ""
    (JObj {[ "storeId" := JNum storeId; "rating" := JNum rating ]}) user.

(** The database after user [target] is deleted, with the tables the
    referential action leaves. *)
Definition without_user (db : DB) (target : Z)
    (st : gmap Z StoreRow) (rt : gmap Z RatingRow) : DB :=
  {| users := delete target (users db); stores := st; ratings := rt;
     user_seq := user_seq db; rating_seq := rating_seq db |}.

(** No two rows of the user table have the same e-mail. *)
Definition unique_emails (t : gmap Z UserRow) : Prop :=
  forall i j u1 u2,
    t !! i = Some u1 -> t !! j = Some u2 ->
    user_email u1 = user_email u2 -> i = j.

(** Every stored rating is between 1 and 5. *)
Definition ratings_in_range (t : gmap Z RatingRow) : Prop :=
  forall id r, t !! id = Some r -> 1 <= rating_value r <= 5.

(** No rating is by the owner of the store it rates. *)
Definition no_self_rating (db : DB) : Prop :=
  forall id r s,
    ratings db !! id = Some r -> stores db !! rating_storeId r = Some s ->
    store_ownerId s <> rating_userId r.

(** A password as the pattern and the minimum length of the schemas want
    it: six characters or more, with a lower-case letter, an upper-case
    letter, a digit and one of [@$!%*?&]. *)
Definition strong_password (s : string) : Prop :=
  (6 <= String.length s)%nat /\
  (exists c, c ∈ String.list_ascii_of_string s /\ is_lower c = true) /\
  (exists c, c ∈ String.list_ascii_of_string s /\ is_upper c = true) /\
  (exists c, c ∈ String.list_ascii_of_string s /\ is_digit c = true) /\
  (exists c, c ∈ String.list_ascii_of_string s /\ is_special c = true).

(** Stand-ins for [bcrypt.compare], for the referential action on the
    ratings of a deleted store (they go with it), and for the two columns
    outside [UserRow]. *)
Definition ref_compare (candidate hash : string) : bool :=
  String.eqb hash ("$10$" ++ candidate) || String.eqb hash ("$12$" ++ candidate).

Definition ref_on_delete_store (id : Z) (rt : gmap Z RatingRow)
  : option (gmap Z RatingRow) :=
  Some (filter (fun kr => rating_storeId kr.2 <> id) rt).

Definition ref_more (id : Z) (u : UserRow) : UserMore :=
  {| more_phone := JNull; more_updatedAt := JNum 2000 |}.

Definition as_user (id : Z) (u : UserRow) (params_id : string) (body : jsval) : Req :=
  request None params_id body (Some (select_auth id u)).

Definition new_user_body (email role : string) : jsval :=
  JObj {[ "name" := JStr "Carol"; "email" := JStr email;
          "password" := JStr "Passw0rd!"; "role" := JStr role ]}.

(** The database after the row of user [id] is replaced. *)
Definition with_user (db : DB) (id : Z) (u : UserRow) : DB :=
  {| users := <[id := u]> (users db); stores := stores db;
     ratings := ratings db; user_seq := user_seq db;
     rating_seq := rating_seq db |}.

Definition change_body (current new : string) : jsval :=
  JObj {[ "currentPassword" := JStr current; "newPassword" := JStr new ]}.

(** * Properties *)

(** ** Helper lemmas *)

Lemma int_arg_returns (v : option jsval) (z : Z) :
  int_arg v = Returns z -> v = Some (JNum z) /\ int32 z.
Proof.
  unfold int_arg. destruct v as [[| | n | |]|]; try discriminate.
  case_bool_decide; [|discriminate]. intros [= ->]. done.
Qed.

Lemma user_findUnique_id_found (db : DB) (v : option jsval) (id : Z) (u : UserRow) :
  user_findUnique_id db v = Returns (Some (id, u)) ->
  v = Some (JNum id) /\ users db !! id = Some u.
Proof.
  unfold user_findUnique_id.
  destruct (int_arg v) as [z|] eqn:Hz; [|discriminate].
  apply int_arg_returns in Hz as [-> _].
  destruct (users db !! z) as [u'|] eqn:Hu; simpl; [|discriminate].
  intros [= -> ->]. done.
Qed.

(** *** Tables *)

Lemma find_row_Some {A : Type} (p : A -> bool) (t : gmap Z A) (k : Z) (a : A) :
  find_row p t = Some (k, a) -> t !! k = Some a /\ p a = true.
Proof.
  unfold find_row. intros H.
  destruct (list_find _ _) as [[i [k' a']]|] eqn:Hfind; [|discriminate].
  simpl in H. injection H as -> ->.
  apply list_find_Some in Hfind as (Hi & Hp & _).
  split; [|done].
  apply elem_of_map_to_list. eapply list_elem_of_lookup_2. exact Hi.
Qed.

Lemma find_row_None {A : Type} (p : A -> bool) (t : gmap Z A) :
  find_row p t = None <-> forall k a, t !! k = Some a -> p a = false.
Proof.
  unfold find_row. split.
  - intros H k a Hk.
    destruct (list_find _ _) as [x|] eqn:Hfind; [discriminate|].
    apply list_find_None in Hfind.
    rewrite list.Forall_forall in Hfind.
    apply elem_of_map_to_list in Hk. apply Hfind in Hk. simpl in Hk.
    by destruct (p a).
  - intros H.
    destruct (list_find _ _) as [[i [k a]]|] eqn:Hfind; [|done].
    apply list_find_Some in Hfind as (Hi & Hp & _). simpl in Hp.
    apply list_elem_of_lookup_2, elem_of_map_to_list, H in Hi. congruence.
Qed.

(** *** Validation *)

Lemma validate_value_string (P : Platform) (rules : list StringRule)
    (valid : option (list string)) (v v' : jsval) :
  validate_value P (TString rules valid) v = inr v' ->
  v' = v /\ exists s, v = JStr s /\
    match valid with
    | Some allowed => s ∈ allowed
    | None => s <> "" /\ first_failure (check_string_rule P s) rules = None
    end.
Proof.
  unfold validate_value. destruct valid as [allowed|].
  - destruct v as [| | | s |]; try discriminate.
    case_bool_decide; [|discriminate]. intros [= <-]. eauto.
  - destruct v as [| | | [|c s] |]; try discriminate.
    destruct (first_failure _ _) eqn:Hrules; [discriminate|].
    intros [= <-]. split; [done|]. eexists. split; [done|]. done.
Qed.

(** What [validate_keys] returns, key by key: a key outside the schema keeps
    what the accumulator had; a key of the schema that the input gives holds
    its validated value; one that the input lacks is optional and holds its
    default, if any. *)
Lemma validate_keys_spec (P : Platform) (schema : Schema)
    (input acc value : gmap string jsval) :
  NoDup schema.*1 ->
  validate_keys P schema input acc = inr value ->
  forall k,
    (k ∉ schema.*1 -> value !! k = acc !! k) /\
    (forall f, (k, f) ∈ schema ->
       match input !! k with
       | Some v =>
           exists v', validate_value P (f_type f) v = inr v' /\
                      value !! k = Some v'
       | None =>
           f_required f = false /\
           value !! k = match f_default f with
                        | Some d => Some d
                        | None => acc !! k
                        end
       end).
Proof.
  revert acc. induction schema as [|[k0 f0] rest IH]; intros acc Hnd Hval k.
  - simpl in Hval. injection Hval as ->. split; [done|].
    intros f Hin. by apply elem_of_nil in Hin.
  - simpl in Hnd. apply list.NoDup_cons in Hnd as [Hk0 Hnd].
    simpl in Hval.
    destruct (input !! k0) as [v0|] eqn:Hin0.
    + destruct (validate_value P (f_type f0) v0) as [code|v0'] eqn:Hv0;
        [discriminate|].
      destruct (IH _ Hnd Hval k) as [Hout Hkey].
      destruct (IH _ Hnd Hval k0) as [Hout0 _].
      split.
      * intros Hk. simpl in Hk. apply not_elem_of_cons in Hk as [Hne Hk].
        rewrite (Hout Hk). by rewrite lookup_insert_ne.
      * intros f Hf. apply elem_of_cons in Hf as [[= -> ->] | Hf].
        -- rewrite Hin0. exists v0'. split; [done|].
           rewrite (Hout0 Hk0). by rewrite lookup_insert_eq.
        -- assert (Hne : k0 <> k).
           { intros ->. apply Hk0. apply list_elem_of_fmap. by exists (k, f). }
           specialize (Hkey f Hf). destruct (input !! k); [done|].
           destruct Hkey as [Hreq Hkey]. split; [done|].
           rewrite Hkey. destruct (f_default f); [done|].
           by rewrite lookup_insert_ne.
    + destruct (f_required f0) eqn:Hreq0; [discriminate|].
      destruct (IH _ Hnd Hval k) as [Hout Hkey].
      destruct (IH _ Hnd Hval k0) as [Hout0 _].
      split.
      * intros Hk. simpl in Hk. apply not_elem_of_cons in Hk as [Hne Hk].
        rewrite (Hout Hk). destruct (f_default f0); [|done].
        by rewrite lookup_insert_ne.
      * intros f Hf. apply elem_of_cons in Hf as [[= -> ->] | Hf].
        -- rewrite Hin0. split; [done|]. rewrite (Hout0 Hk0).
           destruct (f_default f0); [|done]. by rewrite lookup_insert_eq.
        -- assert (Hne : k0 <> k).
           { intros ->. apply Hk0. apply list_elem_of_fmap. by exists (k, f). }
           specialize (Hkey f Hf). destruct (input !! k); [done|].
           destruct Hkey as [Hreq Hkey]. split; [done|].
           rewrite Hkey. destruct (f_default f); [done|].
           destruct (f_default f0); [|done]. by rewrite lookup_insert_ne.
Qed.

(** A body that passes [validate] is an object whose keys are all declared,
    and the value returned is what [validate_keys] built from it. *)
Lemma validate_inr (P : Platform) (schema : Schema) (body value : jsval) :
  validate P schema body = inr value ->
  exists input m,
    body = JObj input /\ value = JObj m /\
    validate_keys P schema input input = inr m /\
    (forall k, k ∉ schema.*1 -> input !! k = None).
Proof.
  unfold validate. destruct body as [| | | |input]; try discriminate.
  destruct (validate_keys P schema input input) as [e|m] eqn:Hkeys;
    [discriminate|].
  destruct (unknown_keys schema input) as [|k ks] eqn:Hunk; [|discriminate].
  intros [= <-]. exists input, m. do 3 (split; [done|]).
  intros k Hk. destruct (input !! k) as [v|] eqn:Hin; [|done].
  exfalso. unfold unknown_keys in Hunk.
  apply (filter_nil_not_elem_of _ _ k Hunk Hk). apply list_elem_of_fmap. exists (k, v). split; [done|].
  by apply elem_of_map_to_list.
Qed.

(** ** The authentication middleware *)

(** [prisma] is not bound where [verifyToken] refers to it. *)
Lemma prisma_unbound : reference verifyToken_scope "prisma" = Throws.
Proof. reflexivity. Qed.

(** The run of [verifyToken] on a token that verifies: the decoded payload
    is put on [req.user], the reference to [prisma] throws, and the [catch]
    answers. *)
Lemma verifyToken_verified
    (P : Platform) (env : Env) (db : DB) (req : Req)
    (token : string) (decoded : jsval) :
  bearer_token req = Some token -> token <> "" ->
  jwt_verify P token (JWT_SECRET env) (now env) = Some decoded ->
  verifyToken P env db req =
    {| vr_calls := [CallJwtVerify token];
       vr_req := set_user req decoded;
       vr_out := Respond 401 (message "Invalid token.") |}.
Proof.
  intros Htok Hne Hver.
  unfold verifyToken. rewrite Htok.
  destruct token as [|c token]; [done|].
  by rewrite Hver, prisma_unbound.
Qed.

(** C1. A request whose token verifies and whose [userId] claim resolves to a
    user should get, on [req.user], the id, e-mail, name and role of the row
    that is in the table now, and be handed over with [next()]. It does not:
    the lookup is written against [prisma], which the module does not bind,
    so the row is never read. The only call made is the signature check,
    [req.user] is left as the decoded payload, with whatever the token
    carries, and the answer is 401 "Invalid token.". *)
Theorem verifyToken_lookup_never_made
    (P : Platform) (env : Env) (db : DB) (req : Req)
    (token : string) (decoded : jsval) (id : Z) (u : UserRow) :
  bearer_token req = Some token -> token <> "" ->
  jwt_verify P token (JWT_SECRET env) (now env) = Some decoded ->
  user_findUnique_id db (prop "userId" decoded) = Returns (Some (id, u)) ->
  users db !! id = Some u /\
  vr_calls (verifyToken P env db req) = [CallJwtVerify token] /\
  vr_out (verifyToken P env db req) = Respond 401 (message "Invalid token.") /\
  vr_out (verifyToken P env db req) <> Next /\
  req_user (vr_req (verifyToken P env db req)) = Some decoded.
Proof.
  intros Htok Hne Hver Hfind.
  split; [by apply user_findUnique_id_found in Hfind as [_ ?]|].
  rewrite (verifyToken_verified P env db req token decoded Htok Hne Hver).
  simpl. repeat split. discriminate.
Qed.

(** Alice, who has a row, presents the token that [generateToken] signs for
    her id. *)
Lemma verifyToken_lookup_never_made_witness :
  generateToken ref_platform ref_env (Some (JNum 42)) = Some "s3cret.605800.u.42." /\
  users ref_db !! 42 = Some alice /\
  vr_out (verifyToken ref_platform ref_env ref_db (bearer "s3cret.605800.u.42."))
    = Respond 401 (message "Invalid token.") /\
  req_user (vr_req (verifyToken ref_platform ref_env ref_db
                      (bearer "s3cret.605800.u.42.")))
    = Some (JObj {[ "userId" := JNum 42; "exp" := JNum 605800 ]}).
Proof.
  split; [vm_compute; reflexivity|].
  destruct (verifyToken_lookup_never_made ref_platform ref_env ref_db
              (bearer "s3cret.605800.u.42.") "s3cret.605800.u.42."
              (JObj {[ "userId" := JNum 42; "exp" := JNum 605800 ]}) 42 alice)
    as (Hrow & _ & Hout & _ & Huser).
  - reflexivity.
  - discriminate.
  - vm_compute. reflexivity.
  - vm_compute. reflexivity.
  - split; [exact Hrow|]. split; [exact Hout | exact Huser].
Defined.

(** C3 does not hold as it is stated: a request without a token and a
    request with a token that does not verify are both refused, with
    different bodies. *)
Lemma verifyToken_failures_distinguishable :
  ~ (forall (P : Platform) (env : Env) (db : DB) (req1 req2 : Req),
       vr_out (verifyToken P env db req1) <> Next ->
       vr_out (verifyToken P env db req2) <> Next ->
       vr_out (verifyToken P env db req1) = vr_out (verifyToken P env db req2)).
Proof.
  intros H.
  specialize (H ref_platform ref_env ref_db
                (request None "" (JObj ∅) None) (bearer "garbage")).
  assert (E1 : vr_out (verifyToken ref_platform ref_env ref_db
                         (request None "" (JObj ∅) None))
               = Respond 401 (message "Unauthorized.")) by reflexivity.
  assert (E2 : vr_out (verifyToken ref_platform ref_env ref_db (bearer "garbage"))
               = Respond 401 (message "Invalid token.")) by reflexivity.
  rewrite E1, E2 in H.
  assert (Heq : Respond 401 (message "Unauthorized.")
                = Respond 401 (message "Invalid token."))
    by (apply H; discriminate).
  apply (f_equal response_message) in Heq. vm_compute in Heq. discriminate.
Qed.

(** C3, amended. Every refusal of [verifyToken] has status 401, and the
    message is not the same for all of them: it is "Unauthorized." when the
    request presents no token and "Invalid token." when the token it
    presents does not verify. *)
Theorem verifyToken_failure_responses
    (P : Platform) (env : Env) (db : DB) (req : Req) :
  (vr_out (verifyToken P env db req) = Next \/
   response_status (vr_out (verifyToken P env db req)) = Some 401)
  /\ (no_token req ->
      vr_out (verifyToken P env db req) = Respond 401 (message "Unauthorized."))
  /\ (forall token,
        bearer_token req = Some token -> token <> "" ->
        jwt_verify P token (JWT_SECRET env) (now env) = None ->
        vr_out (verifyToken P env db req) = Respond 401 (message "Invalid token.")).
Proof.
  split; [|split].
  - unfold verifyToken.
    destruct (bearer_token req) as [[|c token]|]; [by right | | by right].
    destruct (jwt_verify P (String c token) (JWT_SECRET env) (now env))
      as [decoded|]; [|by right].
    destruct (reference verifyToken_scope "prisma"); [|by right].
    destruct (user_findUnique_id db (prop "userId" decoded)) as [[[id u]|]|];
      [by left | by right | by right].
  - unfold verifyToken. by intros [-> | ->].
  - intros token Htok Hne Hver. unfold verifyToken. rewrite Htok.
    destruct token as [|c token]; [done|]. by rewrite Hver.
Qed.

(** No header, and a header whose token is not one of the server's. *)
Lemma verifyToken_failure_responses_witness :
  vr_out (verifyToken ref_platform ref_env ref_db (request None "" (JObj ∅) None))
    = Respond 401 (message "Unauthorized.")
  /\ vr_out (verifyToken ref_platform ref_env ref_db (bearer "garbage"))
     = Respond 401 (message "Invalid token.").
Proof.
  split.
  - apply (proj1 (proj2 (verifyToken_failure_responses ref_platform ref_env ref_db
                           (request None "" (JObj ∅) None)))).
    left. reflexivity.
  - apply (proj2 (proj2 (verifyToken_failure_responses ref_platform ref_env ref_db
                           (bearer "garbage"))) "garbage").
    + reflexivity.
    + discriminate.
    + reflexivity.
Defined.

(** C4. The gate of [requireRole(roles)] calls [next()] exactly when
    [req.user] is present and its role is one of [roles]; it answers 401
    when [req.user] is absent and 403 when it is present with a role that
    is not in the list. *)
Theorem requireRole_decision (roles : list string) (req : Req) :
  (requireRole roles req = Next <->
     truthy (req_user req) = true /\
     exists r, (req_user req ≫= prop "role") = Some (JStr r) /\ r ∈ roles)
  /\ (truthy (req_user req) = false <->
      requireRole roles req = Respond 401 (message "Authentication required"))
  /\ (truthy (req_user req) = true /\
      ~ (exists r, (req_user req ≫= prop "role") = Some (JStr r) /\ r ∈ roles) <->
      requireRole roles req = Respond 403 (message "Insufficient permissions"))
  /\ (req_user req = None -> requireRole roles req <> Next).
Proof.
  assert (Hinc : includes roles (req_user req ≫= prop "role") = true <->
                 exists r, (req_user req ≫= prop "role") = Some (JStr r) /\ r ∈ roles).
  { unfold includes. destruct (req_user req ≫= prop "role") as [[| | | r |]|];
      try (split; [discriminate | intros (r' & [=] & _)]).
    rewrite bool_decide_eq_true. split.
    - intros Hin. by exists r.
    - by intros (r' & [= ->] & Hin). }
  unfold requireRole.
  destruct (truthy (req_user req)) eqn:Hpresent; simpl.
  - destruct (includes roles (req_user req ≫= prop "role")) eqn:Hrole; simpl.
    + split; [|split; [|split]].
      * split; [intros _; split; [done | by apply Hinc] | done].
      * split; discriminate.
      * split; [|discriminate].
        intros [_ Hno]. exfalso. apply Hno. by apply Hinc.
      * intros Hnone. rewrite Hnone in Hpresent. discriminate.
    + split; [|split; [|split]].
      * split; [discriminate|].
        intros [_ Hallowed]. apply Hinc in Hallowed. congruence.
      * split; [discriminate|].
        intros H. apply (f_equal response_status) in H. discriminate.
      * split; [done|]. intros _. split; [done|].
        intros Hallowed. apply Hinc in Hallowed. congruence.
      * intros _. discriminate.
  - split; [|split; [|split]].
    + split; [discriminate|]. intros [? _]. discriminate.
    + split; done.
    + split; [intros [? _]; discriminate|].
      intros H. apply (f_equal response_status) in H. discriminate.
    + intros _. discriminate.
Qed.

(** C5 does not hold as it is stated: the header [Token abc] is not of the
    form [Bearer <token>], and [verifyToken] runs the signature check on
    [abc]. *)
Lemma verifyToken_wrong_scheme_is_checked :
  ~ (forall (P : Platform) (env : Env) (db : DB) (req : Req),
       (forall h, req_authorization req = Some h -> ~ bearer_form h) ->
       vr_calls (verifyToken P env db req) = [] /\
       response_status (vr_out (verifyToken P env db req)) = Some 401).
Proof.
  intros H.
  destruct (H ref_platform ref_env ref_db
              (request (Some "Token abc") "" (JObj ∅) None)) as [Hcalls _].
  - intros h [= <-] (token & _ & Heq). discriminate.
  - assert (E : vr_calls (verifyToken ref_platform ref_env ref_db
                            (request (Some "Token abc") "" (JObj ∅) None))
                = [CallJwtVerify "abc"]) by reflexivity.
    rewrite E in Hcalls. discriminate.
Qed.

(** C5, amended. When the Authorization header is absent, or its value has
    no second field between spaces or an empty one, [verifyToken] answers
    401 "Unauthorized." at once: no signature check, no lookup, [req]
    untouched. *)
Theorem verifyToken_no_token
    (P : Platform) (env : Env) (db : DB) (req : Req) :
  no_token req ->
  verifyToken P env db req =
    {| vr_calls := []; vr_req := req;
       vr_out := Respond 401 (message "Unauthorized.") |}.
Proof.
  unfold verifyToken. by intros [-> | ->].
Qed.

Lemma verifyToken_no_token_witness :
  verifyToken ref_platform ref_env ref_db (request (Some "Bearer") "" (JObj ∅) None) =
    {| vr_calls := []; vr_req := request (Some "Bearer") "" (JObj ∅) None;
       vr_out := Respond 401 (message "Unauthorized.") |}.
Proof.
  apply (verifyToken_no_token ref_platform ref_env ref_db
           (request (Some "Bearer") "" (JObj ∅) None)).
  left. reflexivity.
Defined.

(** An absent header is a case of [no_token]. *)
Lemma no_token_absent (req : Req) : req_authorization req = None -> no_token req.
Proof. unfold no_token, bearer_token. intros ->. by left. Qed.

(** ** Registration and login *)

(** The value of a required string key that passed validation is the
    string the body gave. *)
Lemma validated_string (P : Platform) (schema : Schema) (input m : gmap string jsval)
    (k : string) (rules : list StringRule) :
  NoDup schema.*1 ->
  validate_keys P schema input input = inr m ->
  (k, required (TString rules None)) ∈ schema ->
  exists s, input !! k = Some (JStr s) /\ m !! k = Some (JStr s) /\ s <> "" /\
            first_failure (check_string_rule P s) rules = None.
Proof.
  intros Hnd Hval Hin.
  destruct (validate_keys_spec P schema input input m Hnd Hval k) as [_ Hkey].
  specialize (Hkey _ Hin). simpl in Hkey.
  destruct (input !! k) as [v|]; [|by destruct Hkey].
  destruct Hkey as (v' & Hv & Hm).
  apply validate_value_string in Hv as (-> & s & -> & Hne & Hrules).
  by exists s.
Qed.

(** What [registerSchema] lets through: three non-empty strings, an
    address that is absent or a string, and a role that is one of the three
    if the body gives one and NORMAL_USER if it gives none. *)
Lemma registerSchema_value (P : Platform) (body value : jsval) :
  validate P registerSchema body = inr value ->
  exists name email password,
    prop "name" value = Some (JStr name) /\
    prop "email" body = Some (JStr email) /\
    prop "email" value = Some (JStr email) /\
    prop "password" value = Some (JStr password) /\
    (prop "address" value = None \/
     exists a, prop "address" value = Some (JStr a)) /\
    match prop "role" body with
    | None => prop "role" value = Some (JStr "NORMAL_USER")
    | Some r =>
        exists s, r = JStr s /\ s ∈ ["ADMIN"; "NORMAL_USER"; "STORE_OWNER"] /\
                  prop "role" value = Some (JStr s)
    end.
Proof.
  intros Hval.
  apply validate_inr in Hval as (input & m & -> & -> & Hkeys & Hunknown).
  assert (Hnd : NoDup registerSchema.*1) by nodup_keys.
  destruct (validated_string P _ _ _ "name" _ Hnd Hkeys ltac:(in_schema))
    as (name & _ & Hname & _).
  destruct (validated_string P _ _ _ "email" _ Hnd Hkeys ltac:(in_schema))
    as (email & Hemail0 & Hemail & _).
  destruct (validated_string P _ _ _ "password" _ Hnd Hkeys ltac:(in_schema))
    as (password & _ & Hpassword & _).
  exists name, email, password. simpl. do 4 (split; [done|]). split.
  - destruct (validate_keys_spec P _ _ _ _ Hnd Hkeys "address") as [_ Hkey].
    specialize (Hkey _ ltac:(in_schema)). simpl in Hkey.
    destruct (input !! "address") as [v|] eqn:Hin.
    + destruct Hkey as (v' & Hv & Hm).
      apply validate_value_string in Hv as (-> & s & -> & _).
      right. by exists s.
    + destruct Hkey as [_ Hm]. left. by rewrite Hm.
  - destruct (validate_keys_spec P _ _ _ _ Hnd Hkeys "role") as [_ Hkey].
    specialize (Hkey _ ltac:(in_schema)). simpl in Hkey.
    destruct (input !! "role") as [v|] eqn:Hin.
    + destruct Hkey as (v' & Hv & Hm).
      apply validate_value_string in Hv as (-> & s & -> & Hallowed).
      by exists s.
    + by destruct Hkey as [_ Hm].
Qed.


(** No identifier [user] is bound where [registerUser] builds the token. *)
Lemma registerUser_user_unbound (value : jsval) (hashedPassword : string)
    (newUser : jsval) :
  eval_id_of (registerUser_scope value hashedPassword newUser) "user" = Throws.
Proof. reflexivity. Qed.

(** [registerUser] either leaves the database as it was and answers 400 or
    500, or has stored one row, built from the validated value, under the
    next id, and then answers 500. *)
Lemma registerUser_cases (P : Platform) (env : Env) (req : Req) (db : DB) :
  ((registerUser P env req db).1 = db /\
   (response_status (registerUser P env req db).2 = Some 400 \/
    response_status (registerUser P env req db).2 = Some 500))
  \/ exists value name email password role address,
       validate P registerSchema (req_body req) = inr value /\
       prop "name" value = Some (JStr name) /\
       prop "email" value = Some (JStr email) /\
       prop "password" value = Some (JStr password) /\
       prop "role" value = Some (JStr role) /\
       opt_str_arg (prop "address" value) = Returns address /\
       user_findUnique_email db email = None /\
       users db !! user_seq db = None /\
       registerUser P env req db =
         (with_new_user db (registered_row P env name email password role address),
          Respond 500 (message "Server error creating user.")).
Proof.
  unfold registerUser, try_catch, bind, user_findUnique_email_arg, query, ret.
  destruct (validate P registerSchema (req_body req)) as [e|value] eqn:Hval;
    [left; simpl; auto|].
  destruct (prop "email" value) as [[| | | email |]|] eqn:Hemail; simpl;
    try (left; simpl; auto; fail).
  destruct (user_findUnique_email db email) as [found|] eqn:Hfound;
    [left; simpl; auto|].
  destruct (prop "password" value) as [[| | | password |]|] eqn:Hpassword; simpl;
    try (left; simpl; auto; fail).
  destruct (prop "name" value) as [[| | | name |]|] eqn:Hname; simpl;
    try (left; simpl; auto; fail).
  destruct (prop "role" value) as [[| | | role |]|] eqn:Hrole; simpl;
    try (left; simpl; auto; fail).
  destruct (opt_str_arg (prop "address" value)) as [address|] eqn:Haddress;
    [|left; simpl; auto].
  unfold user_create. simpl.
  destruct (users db !! user_seq db) eqn:Hfresh; [left; simpl; auto|].
  rewrite Hfound. simpl.
  right. exists value, name, email, password, role, address.
  do 8 (split; [done|]).
  by rewrite registerUser_user_unbound.
Qed.

(** [registerUser] never answers 201. *)
Lemma registerUser_never_201 (P : Platform) (env : Env) (req : Req) (db : DB) :
  response_status (registerUser P env req db).2 <> Some 201.
Proof.
  destruct (registerUser_cases P env req db)
    as [[_ [-> | ->]] | (? & ? & ? & ? & ? & ? & H)]; try discriminate.
  destruct H as (_ & _ & _ & _ & _ & _ & _ & _ & ->). discriminate.
Qed.

(** C6. A registration that passes validation with an e-mail that no user
    has should create the user and be answered 201 with a token for the new
    id. [registerUser] does not do that: it stores the new row and then
    fails on the unbound identifier [user], so the answer is 500 "Server
    error creating user." and carries no token. *)
Theorem registerUser_stores_then_answers_500
    (P : Platform) (env : Env) (req : Req) (db : DB) (value : jsval)
    (email : string) :
  validate P registerSchema (req_body req) = inr value ->
  prop "email" value = Some (JStr email) ->
  user_findUnique_email db email = None ->
  users db !! user_seq db = None ->
  exists row,
    user_email row = email /\
    registerUser P env req db =
      (with_new_user db row, Respond 500 (message "Server error creating user.")).
Proof.
  intros Hval Hemail Hfree Hfresh.
  destruct (registerSchema_value P _ _ Hval)
    as (name & email' & password & Hname & _ & Hemail' & Hpassword & Haddress & Hrole).
  assert (email' = email) as -> by congruence.
  assert (exists role, prop "role" value = Some (JStr role)) as [role Hrole'].
  { destruct (prop "role" (req_body req)); [|by eexists].
    destruct Hrole as (s & _ & _ & ?). by exists s. }
  assert (exists address, opt_str_arg (prop "address" value) = Returns address)
    as [address Haddress'].
  { destruct Haddress as [-> | [a ->]]; by eexists. }
  exists (registered_row P env name email password role address).
  split; [done|].
  unfold registerUser, try_catch, bind, user_findUnique_email_arg, query, ret.
  rewrite Hval, Hemail. simpl. rewrite Hfree, Hpassword, Hname, Hrole'. simpl.
  rewrite Haddress'. unfold user_create. simpl. rewrite Hfresh, Hfree. simpl.
  by rewrite registerUser_user_unbound.
Qed.

Lemma registerUser_stores_then_answers_500_witness :
  exists row,
    user_email row = "mallory@example.com" /\
    registerUser ref_platform ref_env (request None "" (register_body None) None)
      ref_db =
      (with_new_user ref_db row,
       Respond 500 (message "Server error creating user.")).
Proof.
  eapply (registerUser_stores_then_answers_500 ref_platform ref_env
            (request None "" (register_body None) None) ref_db).
  - vm_compute. reflexivity.
  - vm_compute. reflexivity.
  - vm_compute. reflexivity.
  - vm_compute. reflexivity.
Defined.

(** C7 does not hold as it is stated: a registration whose body asks for
    the role ADMIN stores a user with the role ADMIN. *)
Lemma registerUser_stores_requested_admin :
  ~ (forall (P : Platform) (env : Env) (req : Req) (db : DB) (id : Z)
            (row : UserRow),
       users db !! id = None ->
       users (registerUser P env req db).1 !! id = Some row ->
       user_role row = "NORMAL_USER").
Proof.
  intros H.
  specialize (H ref_platform ref_env
                (request None "" (register_body (Some "ADMIN")) None)
                ref_db 43 (mallory "ADMIN")).
  assert (Hrole : user_role (mallory "ADMIN") = "NORMAL_USER").
  { apply H; vm_compute; reflexivity. }
  discriminate.
Qed.

(** C7, amended. The role stored for a user created by [registerUser] is
    the role the body of the request gives, which is then one of ADMIN,
    NORMAL_USER and STORE_OWNER, and is NORMAL_USER when the body gives no
    role. *)
Theorem registerUser_stored_role
    (P : Platform) (env : Env) (req : Req) (db : DB) (id : Z) (row : UserRow) :
  users db !! id = None ->
  users (registerUser P env req db).1 !! id = Some row ->
  match prop "role" (req_body req) with
  | None => user_role row = "NORMAL_USER"
  | Some r =>
      r = JStr (user_role row) /\
      user_role row ∈ ["ADMIN"; "NORMAL_USER"; "STORE_OWNER"]
  end.
Proof.
  intros Hnew Hrow.
  destruct (registerUser_cases P env req db)
    as [[Hdb _] | (value & name & email & password & role & address & Hval &
                   _ & _ & _ & Hrole & _ & _ & _ & Hrun)].
  - rewrite Hdb in Hrow. congruence.
  - rewrite Hrun in Hrow. simpl in Hrow.
    destruct (decide (id = user_seq db)) as [-> | Hne];
      [|rewrite lookup_insert_ne in Hrow by done; congruence].
    rewrite lookup_insert_eq in Hrow. injection Hrow as <-. simpl.
    destruct (registerSchema_value P _ _ Hval)
      as (_ & _ & _ & _ & _ & _ & _ & _ & Hschema).
    destruct (prop "role" (req_body req)) as [r|].
    + destruct Hschema as (s & -> & Hallowed & Hs).
      assert (s = role) as -> by congruence. done.
    + congruence.
Qed.

Lemma registerUser_stored_role_witness :
  user_role (mallory "NORMAL_USER") = "NORMAL_USER".
Proof.
  apply (registerUser_stored_role ref_platform ref_env
           (request None "" (register_body None) None) ref_db 43
           (mallory "NORMAL_USER")).
  - vm_compute. reflexivity.
  - vm_compute. reflexivity.
Defined.


(** A 200 from [loginUser] carries the token signed from the payload of a
    user of the database, which is left as it was. *)
Lemma loginUser_200 (P : Platform) (env : Env) (req : Req) (db db' : DB)
    (body : jsval) :
  loginUser P env req db = (db', Respond 200 body) ->
  exists email id u token,
    db' = db /\
    user_findUnique_email db email = Some (id, u) /\
    jwt_sign P (login_payload id u) (JWT_SECRET env) "2d" (now env) = Some token /\
    body = login_success token id u.
Proof.
  unfold loginUser, try_catch, bind, user_findUnique_email_arg, query, ret, call.
  destruct (validate P loginSchema (req_body req)) as [e|value];
    [intros H; wrong_status H|].
  destruct (str_arg (prop "email" value)) as [email|];
    [|intros H; wrong_status H].
  destruct (user_findUnique_email db email) as [[id u]|] eqn:Hfound;
    [|intros H; wrong_status H].
  destruct (jwt_sign P (login_payload id u) (JWT_SECRET env) "2d" (now env))
    as [token|] eqn:Hsign; [|intros H; wrong_status H].
  intros [= <- <-]. by exists email, id, u, token.
Qed.



(** The token of a [Bearer] header is the word after the space. *)
Lemma bearer_token_bearer (token : string) :
  split " " token = [token] -> bearer_token (bearer token) = Some token.
Proof.
  intros Hword.
  assert (Hsplit : split " " ("Bearer " ++ token) = "Bearer" :: split " " token)
    by reflexivity.
  unfold bearer_token, bearer, request, req_authorization.
  by rewrite Hsplit, Hword.
Qed.

(** The key that [verifyToken] reads from the token of a 200 answer of
    [loginUser]: the payload signed has no [userId], and a lookup by that
    key throws in any database. *)
Lemma login_token_lookup_throws
    (P : Platform) (env : Env) (db db' db'' : DB) (req : Req)
    (body : jsval) (token : string) (decoded : jsval) :
  loginUser P env req db = (db', Respond 200 body) ->
  prop "token" body = Some (JStr token) ->
  (forall payload,
     jwt_sign P payload (JWT_SECRET env) "2d" (now env) = Some token ->
     prop "userId" decoded = prop "userId" payload) ->
  user_findUnique_id db'' (prop "userId" decoded) = Throws.
Proof.
  intros Hlogin Htoken Hclaims.
  apply loginUser_200 in Hlogin as (email & id & u & token' & _ & _ & Hsign & ->).
  assert (token' = token) as ->.
  { unfold login_success in Htoken. simpl in Htoken.
    rewrite lookup_insert_ne, lookup_insert_eq in Htoken by done. congruence. }
  specialize (Hclaims _ Hsign).
  unfold user_findUnique_id. by rewrite Hclaims.
Qed.

(** C2. A token issued by the server should verify to the context of the
    user it was issued for, while that user has a row. For the tokens of
    [loginUser] it does not: the token of a 200 answer is signed from
    [{ id, role }]; when it verifies, and the library decodes it to the
    [userId] of the payload it was signed from, there is none, so the key
    of the lookup is [undefined] ([login_token_lookup_throws]); the
    lookup, which moreover refers to the unbound [prisma], throws and
    [verifyToken] answers 401 "Invalid token.", in any database. *)
Theorem login_token_is_rejected
    (P : Platform) (env env' : Env) (db db' db'' : DB) (req : Req)
    (body : jsval) (token : string) (decoded : jsval) :
  loginUser P env req db = (db', Respond 200 body) ->
  prop "token" body = Some (JStr token) ->
  token <> "" -> split " " token = [token] ->
  jwt_verify P token (JWT_SECRET env') (now env') = Some decoded ->
  (forall payload,
     jwt_sign P payload (JWT_SECRET env) "2d" (now env) = Some token ->
     prop "userId" decoded = prop "userId" payload) ->
  vr_out (verifyToken P env' db'' (bearer token))
    = Respond 401 (message "Invalid token.").
Proof.
  intros _ _ Hne Hword Hver _.
  by rewrite (verifyToken_verified P env' db'' (bearer token) token decoded
                (bearer_token_bearer token Hword) Hne Hver).
Qed.

(** Alice logs in and presents her token while her row is in the table. *)
Lemma login_token_is_rejected_witness :
  users ref_db !! 42 = Some alice /\
  vr_out (verifyToken ref_platform ref_env ref_db
            (bearer "s3cret.173800.l.42.NORMAL_USER"))
    = Respond 401 (message "Invalid token.").
Proof.
  split; [reflexivity|].
  apply (login_token_is_rejected ref_platform ref_env ref_env ref_db ref_db ref_db
           (request None "" (login_body "alice@example.com" "not-her-password") None)
           (login_success "s3cret.173800.l.42.NORMAL_USER" 42 alice)
           "s3cret.173800.l.42.NORMAL_USER"
           (JObj {[ "id" := JNum 42; "role" := JStr "NORMAL_USER";
                    "exp" := JNum 173800 ]})).
  - vm_compute. reflexivity.
  - vm_compute. reflexivity.
  - discriminate.
  - reflexivity.
  - vm_compute. reflexivity.
  - intros payload. unfold ref_platform, ref_env, jwt_sign, JWT_SECRET, now.
    unfold ref_sign, ref_claims. simpl.
    destruct (prop "userId" payload) as [[| | n | |]|]; try discriminate.
    + destruct (prop "id" payload); [discriminate|].
      destruct (prop "role" payload); discriminate.
    + reflexivity.
Defined.

(** ** Ratings *)

Lemma same_pair_true (u s : Z) (r : RatingRow) :
  same_pair u s r = true <-> rating_userId r = u /\ rating_storeId r = s.
Proof. unfold same_pair. rewrite andb_true_iff, !Z.eqb_eq. done. Qed.

Lemma unique_pairs_update (t : gmap Z RatingRow) (id : Z) (r : RatingRow) (v : Z) :
  unique_pairs t -> t !! id = Some r ->
  unique_pairs (<[id := set_rating_value r v]> t).
Proof.
  intros Huniq Hid i j r1 r2 Hi Hj Hu Hs.
  apply lookup_insert_Some in Hi as [[<- <-] | [Hi' Hi]];
    apply lookup_insert_Some in Hj as [[<- <-] | [Hj' Hj]]; simpl in *.
  - done.
  - by apply (Huniq id j r r2).
  - by apply (Huniq i id r1 r).
  - by apply (Huniq i j r1 r2).
Qed.

Lemma unique_pairs_insert (t : gmap Z RatingRow) (id u s v : Z) :
  unique_pairs t -> find_row (same_pair u s) t = None ->
  unique_pairs (<[id := new_rating u s v]> t).
Proof.
  intros Huniq Hnone i j r1 r2 Hi Hj Hu Hs.
  rewrite find_row_None in Hnone.
  apply lookup_insert_Some in Hi as [[<- <-] | [Hi' Hi]];
    apply lookup_insert_Some in Hj as [[<- <-] | [Hj' Hj]]; simpl in *.
  - done.
  - apply Hnone in Hj.
    assert (same_pair u s r2 = true) by (by apply same_pair_true).
    congruence.
  - apply Hnone in Hi.
    assert (same_pair u s r1 = true) by (by apply same_pair_true).
    congruence.
  - by apply (Huniq i j r1 r2).
Qed.

(** What [createRating] does to the rating table: nothing, a new value for
    the rating of one row, or one new row for a pair that had none. *)
Lemma createRating_ratings (P : Platform) (req : Req) (db : DB) :
  ratings (createRating P req db).1 = ratings db
  \/ (exists id r v,
        ratings db !! id = Some r /\
        ratings (createRating P req db).1
          = <[id := set_rating_value r v]> (ratings db))
  \/ (exists u s v,
        find_row (same_pair u s) (ratings db) = None /\
        ratings (createRating P req db).1
          = <[rating_seq db := new_rating u s v]> (ratings db)).
Proof.
  unfold createRating, try_catch, bind, store_findUnique, rating_findUnique,
    query, ret.
  destruct (validate P createRatingSchema (req_body req)) as [e|value];
    [by left|].
  destruct (int_arg (prop "storeId" value)) as [sid|]; [|by left].
  destruct (stores db !! sid) as [store|] eqn:Hstore; [|by left].
  destruct (req_user_id req) as [uid|]; [|by left].
  destruct (num_strict_eq (store_ownerId store) uid); [by left|].
  destruct (int_arg uid) as [u|] eqn:Huid; [|by left].
  destruct (find_row (same_pair u sid) (ratings db)) as [[id r0]|] eqn:Hfind.
  - unfold rating_update.
    destruct (ratings db !! id) as [r|] eqn:Hid; [|by left].
    destruct (int_arg (prop "rating" value)) as [v|]; [|by left].
    right; left. by exists id, r, v.
  - unfold rating_create. rewrite Huid.
    destruct (int_arg (prop "storeId" value)) as [s|]; [|by left].
    destruct (int_arg (prop "rating" value)) as [v|]; [|by left].
    destruct (ratings db !! rating_seq db); [by left|].
    destruct (find_row (same_pair u s) (ratings db)) eqn:Hfind'; [by left|].
    destruct (users db !! u); [|by left].
    destruct (stores db !! s); [|by left].
    right; right. by exists u, s, v.
Qed.

Lemma validate_value_number (P : Platform) (rules : list NumberRule) (v v' : jsval) :
  validate_value P (TNumber rules) v = inr v' ->
  exists z, v' = JNum z /\ first_failure (check_number_rule z) rules = None.
Proof.
  unfold validate_value.
  destruct (match v with
            | JNum z => Some z
            | JStr s => joi_number P s
            | _ => None
            end) as [z|]; [|discriminate].
  case_bool_decide; [|discriminate].
  destruct (first_failure (check_number_rule z) rules) eqn:Hrules; [discriminate|].
  intros [= <-]. by exists z.
Qed.

(** What [createRatingSchema] lets through: two numbers, the rating between
    1 and 5. *)
Lemma createRatingSchema_value (P : Platform) (body value : jsval) :
  validate P createRatingSchema body = inr value ->
  exists sid v,
    prop "storeId" value = Some (JNum sid) /\
    prop "rating" value = Some (JNum v) /\ 1 <= v <= 5.
Proof.
  intros Hval.
  apply validate_inr in Hval as (input & m & -> & -> & Hkeys & Hunknown).
  assert (Hnd : NoDup createRatingSchema.*1) by nodup_keys.
  destruct (validate_keys_spec P _ _ _ _ Hnd Hkeys "storeId") as [_ Hsid].
  specialize (Hsid _ ltac:(in_schema)). simpl in Hsid.
  destruct (validate_keys_spec P _ _ _ _ Hnd Hkeys "rating") as [_ Hrating].
  specialize (Hrating _ ltac:(in_schema)). simpl in Hrating.
  destruct (input !! "storeId"); [|by destruct Hsid].
  destruct (input !! "rating"); [|by destruct Hrating].
  destruct Hsid as (? & Hsid & Hm1). destruct Hrating as (? & Hrating & Hm2).
  apply validate_value_number in Hsid as (sid & -> & _).
  apply validate_value_number in Hrating as (v & -> & Hrules).
  exists sid, v. simpl. do 2 (split; [done|]).
  simpl in Hrules.
  destruct (v <? 1)%Z eqn:Hmin; [discriminate|].
  destruct (5 <? v)%Z eqn:Hmax; [discriminate|].
  apply Z.ltb_ge in Hmin, Hmax. lia.
Qed.

Lemma int_arg_int32 (z : Z) : int32 z -> int_arg (Some (JNum z)) = Returns z.
Proof. intros Hz. unfold int_arg. by rewrite bool_decide_eq_true_2. Qed.

(** [createRating] on a request that passes validation, for a store that
    exists and is not the requester's. *)
Lemma createRating_run (P : Platform) (req : Req) (db : DB)
    (value ctx : jsval) (sid uid v : Z) (store : StoreRow) :
  validate P createRatingSchema (req_body req) = inr value ->
  prop "storeId" value = Some (JNum sid) -> int32 sid ->
  prop "rating" value = Some (JNum v) ->
  stores db !! sid = Some store ->
  req_user req = Some ctx -> prop "id" ctx = Some (JNum uid) -> int32 uid ->
  store_ownerId store <> uid ->
  createRating P req db =
    match find_row (same_pair uid sid) (ratings db) with
    | Some (id, r) =>
        let db' := with_ratings db (<[id := set_rating_value r v]> (ratings db))
                     (rating_seq db) in
        (db', Respond 200 (rating_updated
                             (rating_record db' id (set_rating_value r v))))
    | None =>
        match ratings db !! rating_seq db, users db !! uid with
        | None, Some _ =>
            let db' := with_ratings db
                         (<[rating_seq db := new_rating uid sid v]> (ratings db))
                         (rating_seq db + 1) in
            (db', Respond 201 (rating_created
                                 (rating_record db' (rating_seq db)
                                    (new_rating uid sid v))))
        | _, _ => (db, Respond 500 (message "Internal server error"))
        end
    end.
Proof.
  intros Hval Hsid Hsid32 Hv Hstore Hctx Huid Huid32 Howner.
  destruct (createRatingSchema_value P _ _ Hval) as (sid' & v' & _ & Hv' & Hrange).
  assert (v' = v) as -> by congruence.
  assert (Hv32 : int32 v) by (unfold int32; lia).
  assert (Hrid : req_user_id req = Returns (Some (JNum uid))).
  { unfold req_user_id. rewrite Hctx.
    destruct ctx; try discriminate. by rewrite Huid. }
  assert (Hneq : num_strict_eq (store_ownerId store) (Some (JNum uid)) = false).
  { simpl. by apply Z.eqb_neq. }
  unfold createRating, try_catch, bind, store_findUnique, rating_findUnique,
    query, ret.
  rewrite Hval, Hsid, (int_arg_int32 sid Hsid32), Hstore, Hrid, Hneq.
  rewrite (int_arg_int32 uid Huid32).
  destruct (find_row (same_pair uid sid) (ratings db)) as [[id r]|] eqn:Hfind.
  - apply find_row_Some in Hfind as [Hid _].
    unfold rating_update. by rewrite Hid, Hv, (int_arg_int32 v Hv32).
  - unfold rating_create.
    rewrite (int_arg_int32 uid Huid32), (int_arg_int32 sid Hsid32), Hv,
      (int_arg_int32 v Hv32), Hfind, Hstore.
    destruct (ratings db !! rating_seq db); [done|].
    by destruct (users db !! uid).
Qed.

(** C9. [createRating] keeps the rating table free of two rows for one
    (user, store) pair. On a request that passes validation, for a store
    that exists and is not the requester's, from a requester who has a row,
    the rating [v] of the request is between 1 and 5 and: when the
    requester has rated the store under some id, the row of that id holds
    [v] afterwards, for the same user and store, no row is added, nothing
    else changes and the answer is 200 with that rating; when the requester
    has not rated the store, one row (user, store, [v]) is added under the
    next id of the sequence, nothing else changes and the answer is 201 with
    that rating. *)
Theorem createRating_one_rating_per_pair
    (P : Platform) (req : Req) (db : DB) :
  unique_pairs (ratings db) ->
  unique_pairs (ratings (createRating P req db).1) /\
  forall (value ctx : jsval) (sid uid : Z) (store : StoreRow) (urow : UserRow),
    validate P createRatingSchema (req_body req) = inr value ->
    prop "storeId" value = Some (JNum sid) -> int32 sid ->
    stores db !! sid = Some store ->
    req_user req = Some ctx -> prop "id" ctx = Some (JNum uid) -> int32 uid ->
    users db !! uid = Some urow ->
    store_ownerId store <> uid ->
    ratings db !! rating_seq db = None ->
    exists v, prop "rating" value = Some (JNum v) /\ 1 <= v <= 5 /\
      (forall id r,
         ratings db !! id = Some r ->
         rating_userId r = uid -> rating_storeId r = sid ->
         createRating P req db =
           (rated db id uid sid v (rating_seq db),
            Respond 200
              (JObj {[ "message" := JStr "Rating updated successfully";
                       "rating" := rating_json id uid sid v
                                     (store_name store) (user_name urow) ]})))
      /\ ((forall id r,
             ratings db !! id = Some r ->
             ~ (rating_userId r = uid /\ rating_storeId r = sid)) ->
          createRating P req db =
            (rated db (rating_seq db) uid sid v (rating_seq db + 1),
             Respond 201
               (JObj {[ "message" := JStr "Rating created successfully";
                        "rating" := rating_json (rating_seq db) uid sid v
                                      (store_name store) (user_name urow) ]}))).
Proof.
  intros Huniq. split.
  - destruct (createRating_ratings P req db)
      as [-> | [(id & r & v & Hid & ->) | (u & s & v & Hnone & ->)]].
    + done.
    + by apply unique_pairs_update.
    + by apply unique_pairs_insert.
  - intros value ctx sid uid store urow Hval Hsid Hsid32 Hstore Hctx Huid Huid32
      Hurow Howner Hfresh.
    destruct (createRatingSchema_value P _ _ Hval) as (sid' & v & _ & Hv & Hrange).
    exists v. do 2 (split; [done|]).
    pose proof (createRating_run P req db value ctx sid uid v store
                  Hval Hsid Hsid32 Hv Hstore Hctx Huid Huid32 Howner) as Hrun.
    split.
    + intros id r Hid Hu Hs.
      destruct (find_row (same_pair uid sid) (ratings db)) as [[id' r']|] eqn:Hfind.
      * apply find_row_Some in Hfind as [Hid' Hpair].
        apply same_pair_true in Hpair as [Hu' Hs'].
        assert (id' = id) as -> by (apply (Huniq id' id r' r); congruence).
        assert (r' = r) as -> by congruence.
        rewrite Hrun.
        unfold rated, with_ratings, set_rating_value, rating_updated,
          rating_record, rating_json.
        cbn [users stores ratings rating_userId rating_storeId rating_value].
        by rewrite Hu, Hs, Hstore, Hurow.
      * rewrite find_row_None in Hfind. apply Hfind in Hid.
        assert (same_pair uid sid r = true) by (by apply same_pair_true).
        congruence.
    + intros Hnone.
      assert (Hfind : find_row (same_pair uid sid) (ratings db) = None).
      { apply find_row_None. intros k a Hk.
        destruct (same_pair uid sid a) eqn:Hpair; [|done].
        apply same_pair_true in Hpair. exfalso. by apply (Hnone k a). }
      rewrite Hrun, Hfind, Hfresh, Hurow.
      unfold rated, with_ratings, new_rating, rating_created,
        rating_record, rating_json.
      cbn [users stores ratings rating_userId rating_storeId rating_value].
      by rewrite Hstore, Hurow.
Qed.

Lemma unique_pairs_ref_db : unique_pairs (ratings ref_db).
Proof.
  intros i j r1 r2 Hi Hj _ _. simpl in Hi, Hj.
  apply lookup_singleton_Some in Hi as [<- _].
  by apply lookup_singleton_Some in Hj as [<- _].
Qed.

(** Alice rates store 3, which she has rated before with 4, and store 4,
    which she has not. *)
Lemma createRating_one_rating_per_pair_witness :
  ratings ref_db !! 1 = Some {| rating_userId := 42; rating_storeId := 3;
                                rating_value := 4 |}
  /\ unique_pairs
       (ratings (createRating ref_platform (rate 3 5 (Some (select_auth 42 alice)))
                   ref_db).1)
  /\ createRating ref_platform (rate 3 5 (Some (select_auth 42 alice))) ref_db
     = (rated ref_db 1 42 3 5 2,
        Respond 200
          (JObj {[ "message" := JStr "Rating updated successfully";
                   "rating" := rating_json 1 42 3 5 "Corner Shop" "Alice" ]}))
  /\ createRating ref_platform (rate 4 2 (Some (select_auth 42 alice))) ref_db
     = (rated ref_db 2 42 4 2 3,
        Respond 201
          (JObj {[ "message" := JStr "Rating created successfully";
                   "rating" := rating_json 2 42 4 2 "Bakery" "Alice" ]})).
Proof.
  destruct (createRating_one_rating_per_pair ref_platform
              (rate 3 5 (Some (select_auth 42 alice))) ref_db unique_pairs_ref_db)
    as [Hinv Hold].
  destruct (createRating_one_rating_per_pair ref_platform
              (rate 4 2 (Some (select_auth 42 alice))) ref_db unique_pairs_ref_db)
    as [_ Hnew].
  split; [reflexivity|]. split; [exact Hinv|]. split.
  - destruct (Hold (JObj {[ "storeId" := JNum 3; "rating" := JNum 5 ]})
                (select_auth 42 alice) 3 42
                {| store_name := "Corner Shop"; store_ownerId := 7 |} alice)
      as (v & Hv & _ & Hupdate & _).
    + vm_compute. reflexivity.
    + vm_compute. reflexivity.
    + unfold int32. lia.
    + vm_compute. reflexivity.
    + reflexivity.
    + vm_compute. reflexivity.
    + unfold int32. lia.
    + vm_compute. reflexivity.
    + simpl. lia.
    + vm_compute. reflexivity.
    + assert (v = 5) as -> by (vm_compute in Hv; congruence).
      apply (Hupdate 1 {| rating_userId := 42; rating_storeId := 3;
                          rating_value := 4 |}); reflexivity.
  - destruct (Hnew (JObj {[ "storeId" := JNum 4; "rating" := JNum 2 ]})
                (select_auth 42 alice) 4 42
                {| store_name := "Bakery"; store_ownerId := 7 |} alice)
      as (v & Hv & _ & _ & Hcreate).
    + vm_compute. reflexivity.
    + vm_compute. reflexivity.
    + unfold int32. lia.
    + vm_compute. reflexivity.
    + reflexivity.
    + vm_compute. reflexivity.
    + unfold int32. lia.
    + vm_compute. reflexivity.
    + simpl. lia.
    + vm_compute. reflexivity.
    + assert (v = 2) as -> by (vm_compute in Hv; congruence).
      apply Hcreate.
      intros id r Hid [Hu Hs]. simpl in Hid.
      apply lookup_singleton_Some in Hid as [_ <-]. simpl in Hs. lia.
Defined.

(** ** Deleting a user *)

(** [deleteUserByAdmin] either leaves the database as it was, or has
    deleted the row of the target, which existed and is not the caller's,
    and answers 200. *)
Lemma deleteUserByAdmin_cases (P : Platform) (req : Req) (db : DB) :
  (deleteUserByAdmin P req db).1 = db
  \/ exists target row callerId st rt,
       parseInt (req_params_id req) = Some target /\
       users db !! target = Some row /\
       req_user_id req = Returns callerId /\
       callerId <> Some (JNum target) /\
       deleteUserByAdmin P req db =
         (without_user db target st rt,
          Respond 200 (message "User deleted successfully")).
Proof.
  unfold deleteUserByAdmin, try_catch, bind, query, ret, user_findUnique_id.
  destruct (parseInt (req_params_id req)) as [target|]; [|by left].
  simpl. destruct (bool_decide (int32 target)) eqn:Hrange; [|by left].
  destruct (users db !! target) as [row|] eqn:Hrow; [|by left].
  simpl. destruct (req_user_id req) as [callerId|] eqn:Hcaller; [|by left].
  destruct (num_strict_eq target callerId) eqn:Hself; [by left|].
  unfold user_delete. simpl. rewrite Hrange, Hrow.
  destruct (on_delete_user P target (stores db) (ratings db)) as [[st rt]|];
    [|by left].
  right. exists target, row, callerId, st, rt.
  do 3 (split; [done|]). split; [|done].
  intros ->. simpl in Hself. by rewrite Z.eqb_refl in Hself.
Qed.

(** C10. When the caller has a row and the target id of the request is the
    caller's own, [deleteUserByAdmin] answers 400 and leaves the database as
    it was. Whenever it changes the database, the target had a row, is not
    the caller, and the row is what was deleted. *)
Theorem deleteUserByAdmin_refuses_self (P : Platform) (db : DB) :
  (forall (req : Req) (uid : Z) (row : UserRow),
     (req_user req ≫= prop "id") = Some (JNum uid) ->
     users db !! uid = Some row -> int32 uid ->
     parseInt (req_params_id req) = Some uid ->
     deleteUserByAdmin P req db =
       (db, Respond 400 (message "You cannot delete your own account")))
  /\ (forall req : Req,
        (deleteUserByAdmin P req db).1 <> db ->
        exists target row,
          parseInt (req_params_id req) = Some target /\
          users db !! target = Some row /\
          (req_user req ≫= prop "id") <> Some (JNum target) /\
          users (deleteUserByAdmin P req db).1 = delete target (users db) /\
          (deleteUserByAdmin P req db).2 =
            Respond 200 (message "User deleted successfully")).
Proof.
  split.
  - intros req uid row Hid Hrow Hrange Htarget.
    assert (Hcaller : req_user_id req = Returns (Some (JNum uid))).
    { unfold req_user_id.
      destruct (req_user req) as [[| | | |fields]|]; try discriminate.
      simpl in Hid. simpl. by rewrite Hid. }
    unfold deleteUserByAdmin, try_catch, bind, query, ret, user_findUnique_id.
    rewrite Htarget. simpl.
    rewrite bool_decide_eq_true_2 by done. rewrite Hrow. simpl.
    rewrite Hcaller. simpl. by rewrite Z.eqb_refl.
  - intros req Hchanged.
    destruct (deleteUserByAdmin_cases P req db)
      as [Hsame | (target & row & callerId & st & rt & Htarget & Hrow &
                   Hcaller & Hother & Hrun)]; [done|].
    exists target, row. do 2 (split; [done|]).
    rewrite Hrun. simpl. split; [|done].
    unfold req_user_id in Hcaller.
    destruct (req_user req) as [[| | | |fields]|]; try discriminate;
      injection Hcaller as <-; exact Hother.
Qed.

(** Bob, user 7, asks for the deletion of user 7. *)
Lemma deleteUserByAdmin_refuses_self_witness :
  users ref_db !! 7 = Some bob /\
  deleteUserByAdmin ref_platform (as_user 7 bob "7" (JObj ∅)) ref_db
  = (ref_db, Respond 400 (message "You cannot delete your own account")).
Proof.
  split; [reflexivity|].
  apply (proj1 (deleteUserByAdmin_refuses_self ref_platform ref_db)
           (as_user 7 bob "7" (JObj ∅)) 7 bob).
  - reflexivity.
  - reflexivity.
  - unfold int32. lia.
  - reflexivity.
Defined.

(** Bob asks for the deletion of a user without stores or ratings. *)
Example deleteUserByAdmin_deletes_other :
  let db := {| users := {[ 7 := bob; 9 := alice ]}; stores := ∅; ratings := ∅;
               user_seq := 10; rating_seq := 1 |} in
  let r := deleteUserByAdmin ref_platform
             (request None "9" (JObj ∅) (Some (select_auth 7 bob))) db in
  users r.1 !! 9 = None /\ users r.1 !! 7 = Some bob /\
  response_status r.2 = Some 200.
Proof. vm_compute. done. Qed.

(** * Further properties *)

(** ** Helper lemmas *)

Lemma unique_emails_insert (t : gmap Z UserRow) (id : Z) (row : UserRow) :
  unique_emails t ->
  find_row (fun u => String.eqb (user_email u) (user_email row)) t = None ->
  unique_emails (<[id := row]> t).
Proof.
  intros Huniq Hnone i j u1 u2 Hi Hj He.
  rewrite find_row_None in Hnone.
  apply lookup_insert_Some in Hi as [[<- <-] | [Hi' Hi]];
    apply lookup_insert_Some in Hj as [[<- <-] | [Hj' Hj]].
  - done.
  - apply Hnone in Hj. rewrite <- He, String.eqb_refl in Hj. discriminate.
  - apply Hnone in Hi. rewrite He, String.eqb_refl in Hi. discriminate.
  - by apply (Huniq i j u1 u2).
Qed.

(** ** The authentication middleware, further *)

(** X1. [verifyToken] never hands a request over: whatever the request, the
    libraries and the database, it answers 401 and does not call [next()],
    and its run is the same in every database. *)
Theorem verifyToken_always_401
    (P : Platform) (env : Env) (db db' : DB) (req : Req) :
  response_status (vr_out (verifyToken P env db req)) = Some 401 /\
  vr_out (verifyToken P env db req) <> Next /\
  verifyToken P env db' req = verifyToken P env db req.
Proof.
  unfold verifyToken.
  destruct (bearer_token req) as [[|c token]|]; [done | | done].
  destruct (jwt_verify P (String c token) (JWT_SECRET env) (now env))
    as [decoded|]; [|done].
  by rewrite prisma_unbound.
Qed.

(** ** Registration and login, further *)

Lemma first_line_subset (s : string) (c : ascii) :
  c ∈ first_line s -> c ∈ String.list_ascii_of_string s.
Proof.
  induction s as [|d s IH]; simpl; [done|].
  destruct (is_line_terminator d); [by intros ?%elem_of_nil|].
  intros [-> | Hin]%elem_of_cons; [apply list_elem_of_here|].
  apply list_elem_of_further. by apply IH.
Qed.

Lemma existsb_first_line (p : ascii -> bool) (s : string) :
  existsb p (first_line s) = true ->
  exists c, c ∈ String.list_ascii_of_string s /\ p c = true.
Proof.
  intros (c & Hin & Hp)%existsb_exists.
  exists c. split; [|done]. by apply first_line_subset, list_elem_of_In.
Qed.

(** A string that passes [min(6)] and the password pattern. *)
Lemma password_rules_strong (P : Platform) (s : string) :
  first_failure (check_string_rule P s) [SMin 6; SPattern password_pattern] = None ->
  strong_password s.
Proof.
  simpl. destruct (String.length s <? 6)%nat eqn:Hlen; [discriminate|].
  destruct (password_pattern s) eqn:Hpat; [|discriminate]. intros _.
  apply Nat.ltb_ge in Hlen.
  unfold password_pattern in Hpat.
  repeat (apply andb_true_iff in Hpat as [Hpat ?]).
  split; [done|]. repeat split; by apply existsb_first_line.
Qed.

(** X4. [registerUser] keeps the e-mails of the user table distinct and
    never changes a row that is there; a registration for an e-mail that a
    user has is answered 400 and leaves the database as it was. *)
Theorem registerUser_keeps_emails_unique
    (P : Platform) (env : Env) (req : Req) (db : DB) :
  unique_emails (users db) ->
  unique_emails (users (registerUser P env req db).1) /\
  (forall id u, users db !! id = Some u ->
                users (registerUser P env req db).1 !! id = Some u) /\
  (forall value email,
     validate P registerSchema (req_body req) = inr value ->
     prop "email" value = Some (JStr email) ->
     is_Some (user_findUnique_email db email) ->
     registerUser P env req db =
       (db, Respond 400 (message "User already exists with this email."))).
Proof.
  intros Huniq. split; [|split].
  - destruct (registerUser_cases P env req db)
      as [[-> _] | (value & name & email & password & role & address & _ & _ &
                    _ & _ & _ & _ & Hfree & _ & ->)]; [done|].
    simpl. by apply unique_emails_insert.
  - intros id u Hrow.
    destruct (registerUser_cases P env req db)
      as [[-> _] | (value & name & email & password & role & address & _ & _ &
                    _ & _ & _ & _ & _ & Hfresh & ->)]; [done|].
    simpl. rewrite lookup_insert_ne; [done|]. intros <-. congruence.
  - intros value email Hval Hemail [found Hfound].
    unfold registerUser, try_catch, bind, user_findUnique_email_arg, query, ret.
    by rewrite Hval, Hemail; simpl; rewrite Hfound.
Qed.

Lemma unique_emails_ref_db : unique_emails (users ref_db).
Proof.
  intros i j u1 u2 Hi Hj He. simpl in Hi, Hj.
  apply lookup_insert_Some in Hi as [[<- <-] | [_ [<- <-]%lookup_singleton_Some]];
    apply lookup_insert_Some in Hj as [[<- <-] | [_ [<- <-]%lookup_singleton_Some]];
    done.
Qed.

(** A second registration for Alice's e-mail. *)
Lemma registerUser_keeps_emails_unique_witness :
  registerUser ref_platform ref_env
    (request None ""
       (JObj {[ "name" := JStr "Alice Two"; "email" := JStr "alice@example.com";
                "password" := JStr "Passw0rd!" ]}) None) ref_db
  = (ref_db, Respond 400 (message "User already exists with this email.")).
Proof.
  destruct (registerUser_keeps_emails_unique ref_platform ref_env
              (request None ""
                 (JObj {[ "name" := JStr "Alice Two";
                          "email" := JStr "alice@example.com";
                          "password" := JStr "Passw0rd!" ]}) None)
              ref_db unique_emails_ref_db) as (_ & _ & Htaken).
  eapply Htaken.
  - vm_compute. reflexivity.
  - vm_compute. reflexivity.
  - eexists. vm_compute. reflexivity.
Defined.

(** X5. The password column of a row that [registerUser] stores is
    [bcrypt.hash(password, 10)] for the password of the body, which has six
    characters or more and holds a lower-case letter, an upper-case letter,
    a digit and one of [@$!%*?&]. *)
Theorem registerUser_stores_hash_of_strong_password
    (P : Platform) (env : Env) (req : Req) (db : DB) (id : Z) (row : UserRow) :
  users db !! id = None ->
  users (registerUser P env req db).1 !! id = Some row ->
  exists password,
    prop "password" (req_body req) = Some (JStr password) /\
    user_password row = bcrypt_hash P password 10 /\
    strong_password password.
Proof.
  intros Hnew Hrow.
  destruct (registerUser_cases P env req db)
    as [[Hdb _] | (value & name & email & password & role & address & Hval &
                   _ & _ & Hpassword & _ & _ & _ & _ & Hrun)].
  - rewrite Hdb in Hrow. congruence.
  - rewrite Hrun in Hrow. simpl in Hrow.
    destruct (decide (id = user_seq db)) as [-> | Hne];
      [|rewrite lookup_insert_ne in Hrow by done; congruence].
    rewrite lookup_insert_eq in Hrow. injection Hrow as <-.
    apply validate_inr in Hval as (input & m & Hbody & -> & Hkeys & _).
    assert (Hnd : NoDup registerSchema.*1) by nodup_keys.
    destruct (validated_string P _ _ _ "password" _ Hnd Hkeys ltac:(in_schema))
      as (s & Hin & Hm & _ & Hrules).
    simpl in Hpassword. assert (s = password) as -> by congruence.
    exists password. rewrite Hbody. simpl. split; [done|]. split; [done|].
    by apply (password_rules_strong P).
Qed.

Lemma registerUser_stores_hash_of_strong_password_witness :
  exists password,
    prop "password" (register_body None) = Some (JStr password) /\
    user_password (mallory "NORMAL_USER") = bcrypt_hash ref_platform password 10 /\
    strong_password password.
Proof.
  apply (registerUser_stores_hash_of_strong_password ref_platform ref_env
           (request None "" (register_body None) None) ref_db 43
           (mallory "NORMAL_USER")).
  - vm_compute. reflexivity.
  - vm_compute. reflexivity.
Defined.

(** X6. [loginUser] never writes to the database, and the [user] object of
    its 200 answer has no [password]. *)
Theorem loginUser_reads_only_and_hides_password
    (P : Platform) (env : Env) (req : Req) (db : DB) :
  (loginUser P env req db).1 = db /\
  forall body,
    (loginUser P env req db).2 = Respond 200 body ->
    is_Some (prop "user" body) /\
    (prop "user" body ≫= prop "password") = None.
Proof.
  split.
  - unfold loginUser, try_catch, bind, user_findUnique_email_arg, query, ret, call.
    destruct (validate P loginSchema (req_body req)) as [e|value]; [done|].
    destruct (str_arg (prop "email" value)) as [email|]; [|done].
    destruct (user_findUnique_email db email) as [[id u]|]; [|done].
    by destruct (jwt_sign P _ _ _ _).
  - intros body H200.
    destruct (loginUser P env req db) as [db' out] eqn:Hrun. simpl in H200.
    subst out. apply loginUser_200 in Hrun as (email & id & u & token & _ & _ & _ & ->).
    split; [by eexists|]. reflexivity.
Qed.

(** ** Ratings, further *)

(** What a request must be for [createRating] to write: validated, for a
    store that exists and that the requester does not own. The row written
    is the requester's for that store, with the validated rating. *)
Lemma createRating_effect (P : Platform) (req : Req) (db : DB) :
  (createRating P req db).1 = db
  \/ exists value u s v store,
       validate P createRatingSchema (req_body req) = inr value /\
       prop "rating" value = Some (JNum v) /\ 1 <= v <= 5 /\
       stores db !! s = Some store /\ store_ownerId store <> u /\
       ((exists id r,
           ratings db !! id = Some r /\ same_pair u s r = true /\
           (createRating P req db).1 =
             with_ratings db (<[id := set_rating_value r v]> (ratings db))
               (rating_seq db))
        \/ (find_row (same_pair u s) (ratings db) = None /\
            (createRating P req db).1 =
              with_ratings db (<[rating_seq db := new_rating u s v]> (ratings db))
                (rating_seq db + 1))).
Proof.
  unfold createRating, try_catch, bind, store_findUnique, rating_findUnique,
    query, ret.
  destruct (validate P createRatingSchema (req_body req)) as [e|value] eqn:Hval;
    [by left|].
  destruct (createRatingSchema_value P _ _ Hval) as (sid & v & Hsid & Hv & Hrange).
  rewrite Hsid.
  destruct (int_arg (Some (JNum sid))) as [s|] eqn:Hs; [|by left].
  apply int_arg_returns in Hs as [[= <-] Hs32].
  destruct (stores db !! sid) as [store|] eqn:Hstore; [|by left].
  destruct (req_user_id req) as [uid|]; [|by left].
  destruct (num_strict_eq (store_ownerId store) uid) eqn:Hown; [by left|].
  destruct (int_arg uid) as [u|] eqn:Huid; [|by left].
  apply int_arg_returns in Huid as [-> Hu32].
  simpl in Hown. apply Z.eqb_neq in Hown.
  assert (Hv32 : int32 v) by (unfold int32; lia).
  destruct (find_row (same_pair u sid) (ratings db)) as [[id r0]|] eqn:Hfind.
  - apply find_row_Some in Hfind as [Hid Hpair].
    unfold rating_update. rewrite Hid, Hv, (int_arg_int32 v Hv32).
    right. exists value, u, sid, v, store. do 5 (split; [done|]).
    left. by exists id, r0.
  - unfold rating_create.
    rewrite (int_arg_int32 u Hu32), (int_arg_int32 sid Hs32), Hv,
      (int_arg_int32 v Hv32), Hfind, Hstore.
    destruct (ratings db !! rating_seq db); [by left|].
    destruct (users db !! u); [|by left].
    right. exists value, u, sid, v, store. do 5 (split; [done|]).
    by right.
Qed.

(** X7. [createRating] keeps every stored rating between 1 and 5. *)
Theorem createRating_keeps_ratings_in_range
    (P : Platform) (req : Req) (db : DB) :
  ratings_in_range (ratings db) ->
  ratings_in_range (ratings (createRating P req db).1).
Proof.
  intros Hrange.
  destruct (createRating_effect P req db)
    as [-> | (value & u & s & v & store & _ & _ & Hv & _ & _ &
              [(id & r & _ & _ & ->) | (_ & ->)])]; [done| |];
    intros k row Hk; simpl in Hk;
    apply lookup_insert_Some in Hk as [[<- <-] | [_ Hk]]; simpl; eauto.
Qed.

Lemma ratings_in_range_ref_db : ratings_in_range (ratings ref_db).
Proof.
  intros id r Hid. simpl in Hid.
  apply lookup_singleton_Some in Hid as [<- <-]. simpl. lia.
Qed.

Lemma createRating_keeps_ratings_in_range_witness :
  ratings_in_range
    (ratings (createRating ref_platform (rate 4 2 (Some (select_auth 42 alice)))
                ref_db).1).
Proof.
  apply (createRating_keeps_ratings_in_range ref_platform
           (rate 4 2 (Some (select_auth 42 alice))) ref_db).
  exact ratings_in_range_ref_db.
Defined.

(** X8. [createRating] never stores a rating by the owner of the store: it
    keeps the table free of such rows, and answers the owner 400 "You
    cannot rate your own store" without writing. *)
Theorem createRating_refuses_the_owner
    (P : Platform) (req : Req) (db : DB) :
  no_self_rating db ->
  no_self_rating (createRating P req db).1 /\
  forall (value ctx : jsval) (sid : Z) (store : StoreRow),
    validate P createRatingSchema (req_body req) = inr value ->
    prop "storeId" value = Some (JNum sid) -> int32 sid ->
    stores db !! sid = Some store ->
    req_user req = Some ctx ->
    prop "id" ctx = Some (JNum (store_ownerId store)) ->
    createRating P req db =
      (db, Respond 400 (message "You cannot rate your own store")).
Proof.
  intros Hinv. split.
  - destruct (createRating_effect P req db)
      as [-> | (value & u & s & v & store & _ & _ & _ & Hstore & Hown &
                [(id & r & Hid & Hpair & ->) | (_ & ->)])]; [done| |];
      intros k row st Hk Hst; simpl in Hk, Hst;
      apply lookup_insert_Some in Hk as [[<- <-] | [_ Hk]]; simpl in *;
      try (by eapply Hinv).
    assert (st = store) as -> by congruence. done.
  - intros value ctx sid store Hval Hsid Hsid32 Hstore Hctx Hid.
    unfold createRating, try_catch, bind, store_findUnique, query, ret.
    rewrite Hval, Hsid, (int_arg_int32 sid Hsid32), Hstore.
    unfold req_user_id. rewrite Hctx.
    destruct ctx; try discriminate. rewrite Hid. simpl.
    by rewrite Z.eqb_refl.
Qed.

Lemma no_self_rating_ref_db : no_self_rating ref_db.
Proof.
  intros id r s Hid Hs. simpl in Hid.
  apply lookup_singleton_Some in Hid as [<- <-]. simpl in Hs.
  rewrite lookup_insert_eq in Hs. injection Hs as <-. simpl. lia.
Qed.

(** Bob rates his own store 3. *)
Lemma createRating_refuses_the_owner_witness :
  createRating ref_platform (rate 3 5 (Some (select_auth 7 bob))) ref_db
  = (ref_db, Respond 400 (message "You cannot rate your own store")).
Proof.
  destruct (createRating_refuses_the_owner ref_platform
              (rate 3 5 (Some (select_auth 7 bob))) ref_db no_self_rating_ref_db)
    as [_ Howner].
  apply (Howner (JObj {[ "storeId" := JNum 3; "rating" := JNum 5 ]})
           (select_auth 7 bob) 3
           {| store_name := "Corner Shop"; store_ownerId := 7 |}).
  - vm_compute. reflexivity.
  - vm_compute. reflexivity.
  - unfold int32. lia.
  - vm_compute. reflexivity.
  - reflexivity.
  - reflexivity.
Defined.

(** X9. A user who rates a store for the first time and then rates it
    again is answered 201 and then 200, and the rating table ends with the
    one row of the first request, holding the rating of the second. *)
Theorem createRating_twice_keeps_one_row
    (P : Platform) (req1 req2 : Req) (db : DB) (value1 value2 ctx : jsval)
    (sid uid : Z) (store : StoreRow) :
  validate P createRatingSchema (req_body req1) = inr value1 ->
  validate P createRatingSchema (req_body req2) = inr value2 ->
  prop "storeId" value1 = Some (JNum sid) ->
  prop "storeId" value2 = Some (JNum sid) -> int32 sid ->
  stores db !! sid = Some store ->
  req_user req1 = Some ctx -> req_user req2 = Some ctx ->
  prop "id" ctx = Some (JNum uid) -> int32 uid ->
  is_Some (users db !! uid) -> store_ownerId store <> uid ->
  find_row (same_pair uid sid) (ratings db) = None ->
  ratings db !! rating_seq db = None ->
  exists v2,
    prop "rating" value2 = Some (JNum v2) /\
    response_status (createRating P req1 db).2 = Some 201 /\
    response_status (createRating P req2 (createRating P req1 db).1).2 = Some 200 /\
    ratings (createRating P req2 (createRating P req1 db).1).1
      = <[rating_seq db := new_rating uid sid v2]> (ratings db).
Proof.
  intros Hval1 Hval2 Hsid1 Hsid2 Hsid32 Hstore Hctx1 Hctx2 Huid Huid32
    [urow Hurow] Howner Hnone Hfresh.
  destruct (createRatingSchema_value P _ _ Hval1) as (? & v1 & _ & Hv1 & _).
  destruct (createRatingSchema_value P _ _ Hval2) as (? & v2 & _ & Hv2 & _).
  exists v2. split; [done|].
  rewrite (createRating_run P req1 db value1 ctx sid uid v1 store) by done.
  rewrite Hnone, Hfresh, Hurow. simpl. split; [done|].
  set (db1 := with_ratings db
                (<[rating_seq db := new_rating uid sid v1]> (ratings db))
                (rating_seq db + 1)).
  rewrite (createRating_run P req2 db1 value2 ctx sid uid v2 store) by done.
  destruct (find_row (same_pair uid sid) (ratings db1)) as [[k r]|] eqn:Hfind.
  - apply find_row_Some in Hfind as [Hk Hpair]. simpl in Hk.
    apply lookup_insert_Some in Hk as [[<- <-] | [_ Hk]].
    + simpl. split; [done|]. by rewrite insert_insert_eq.
    + rewrite find_row_None in Hnone. apply Hnone in Hk. congruence.
  - rewrite find_row_None in Hfind.
    specialize (Hfind (rating_seq db) (new_rating uid sid v1)).
    simpl in Hfind. rewrite lookup_insert_eq in Hfind.
    specialize (Hfind eq_refl). unfold same_pair in Hfind. simpl in Hfind.
    by rewrite !Z.eqb_refl in Hfind.
Qed.

(** Alice rates store 4 with 2, then with 5. *)
Lemma createRating_twice_keeps_one_row_witness :
  ratings (createRating ref_platform (rate 4 5 (Some (select_auth 42 alice)))
             (createRating ref_platform (rate 4 2 (Some (select_auth 42 alice)))
                ref_db).1).1
  = <[2 := new_rating 42 4 5]> (ratings ref_db).
Proof.
  destruct (createRating_twice_keeps_one_row ref_platform
              (rate 4 2 (Some (select_auth 42 alice)))
              (rate 4 5 (Some (select_auth 42 alice))) ref_db
              (JObj {[ "storeId" := JNum 4; "rating" := JNum 2 ]})
              (JObj {[ "storeId" := JNum 4; "rating" := JNum 5 ]})
              (select_auth 42 alice) 4 42
              {| store_name := "Bakery"; store_ownerId := 7 |})
    as (v2 & Hv2 & _ & _ & Htable).
  - vm_compute. reflexivity.
  - vm_compute. reflexivity.
  - vm_compute. reflexivity.
  - vm_compute. reflexivity.
  - unfold int32. lia.
  - vm_compute. reflexivity.
  - reflexivity.
  - reflexivity.
  - reflexivity.
  - unfold int32. lia.
  - exists alice. vm_compute. reflexivity.
  - simpl. lia.
  - vm_compute. reflexivity.
  - vm_compute. reflexivity.
  - assert (Hv : prop "rating" (JObj {[ "storeId" := JNum 4; "rating" := JNum 5 ]})
                 = Some (JNum 5)) by reflexivity.
    rewrite Hv in Hv2. injection Hv2 as <-. exact Htable.
Defined.

(** ** Administration of users *)

(** X10. [deleteUserByAdmin] has no check of the id it parses: an id that
    is not a number, or one outside the 32-bit integers, makes the lookup
    throw and is answered 500; a number that no user has is answered 404.
    Nothing is deleted in either case. *)
Theorem deleteUserByAdmin_bad_target (P : Platform) (req : Req) (db : DB) :
  match parseInt (req_params_id req) with
  | None =>
      deleteUserByAdmin P req db
        = (db, Respond 500 (message "Internal server error"))
  | Some target =>
      (~ int32 target ->
       deleteUserByAdmin P req db
         = (db, Respond 500 (message "Internal server error"))) /\
      (int32 target -> users db !! target = None ->
       deleteUserByAdmin P req db = (db, Respond 404 (message "User not found")))
  end.
Proof.
  unfold deleteUserByAdmin, try_catch, bind, query, ret, user_findUnique_id.
  destruct (parseInt (req_params_id req)) as [target|]; [|done].
  simpl. split.
  - intros Hout. by rewrite bool_decide_eq_false_2.
  - intros Hin Hnone. by rewrite bool_decide_eq_true_2, Hnone.
Qed.

(** What [createUserSchema] lets through. *)
Lemma createUserSchema_value (P : Platform) (body value : jsval) :
  validate P createUserSchema body = inr value ->
  exists name email password role,
    prop "name" value = Some (JStr name) /\
    prop "email" value = Some (JStr email) /\
    prop "password" body = Some (JStr password) /\
    prop "password" value = Some (JStr password) /\
    strong_password password /\
    (prop "address" value = None \/
     exists a, prop "address" value = Some (JStr a)) /\
    prop "role" body = Some (JStr role) /\
    prop "role" value = Some (JStr role) /\
    role ∈ ["ADMIN"; "NORMAL_USER"; "STORE_OWNER"].
Proof.
  intros Hval.
  apply validate_inr in Hval as (input & m & -> & -> & Hkeys & Hunknown).
  assert (Hnd : NoDup createUserSchema.*1) by nodup_keys.
  destruct (validated_string P _ _ _ "name" _ Hnd Hkeys ltac:(in_schema))
    as (name & _ & Hname & _).
  destruct (validated_string P _ _ _ "email" _ Hnd Hkeys ltac:(in_schema))
    as (email & _ & Hemail & _).
  destruct (validated_string P _ _ _ "password" _ Hnd Hkeys ltac:(in_schema))
    as (password & Hpassword0 & Hpassword & _ & Hrules).
  destruct (validate_keys_spec P _ _ _ _ Hnd Hkeys "role") as [_ Hrole].
  specialize (Hrole _ ltac:(in_schema)). simpl in Hrole.
  destruct (input !! "role") as [r|] eqn:Hr; [|by destruct Hrole].
  destruct Hrole as (r' & Hv & Hm).
  apply validate_value_string in Hv as (-> & role & -> & Hallowed).
  exists name, email, password, role. simpl.
  do 4 (split; [done|]). split; [by apply (password_rules_strong P)|].
  split; [|done].
  destruct (validate_keys_spec P _ _ _ _ Hnd Hkeys "address") as [_ Hkey].
  specialize (Hkey _ ltac:(in_schema)). simpl in Hkey.
  destruct (input !! "address") as [v|] eqn:Hin.
  - destruct Hkey as (v' & Hv & Hm').
    apply validate_value_string in Hv as (-> & s & -> & _).
    right. by exists s.
  - destruct Hkey as [_ Hm']. left. by rewrite Hm'.
Qed.

(** [createUser] either leaves the database as it was, or has stored one
    row under the next id and answers 201 with it. *)
Lemma createUser_cases (P : Platform) (env : Env) (req : Req) (db : DB) :
  (createUser P env req db).1 = db
  \/ exists value name email password role address,
       validate P createUserSchema (req_body req) = inr value /\
       prop "name" value = Some (JStr name) /\
       prop "email" value = Some (JStr email) /\
       prop "password" value = Some (JStr password) /\
       prop "role" value = Some (JStr role) /\
       opt_str_arg (prop "address" value) = Returns address /\
       user_findUnique_email db email = None /\
       users db !! user_seq db = None /\
       let row := {| user_name := name; user_email := email;
                     user_password := password; user_address := address;
                     user_role := role; user_createdAt := now env |} in
       createUser P env req db =
         (with_new_user db row,
          Respond 201 (user_created (select_profile (user_seq db) row))).
Proof.
  unfold createUser, try_catch, bind, user_findUnique_email_arg, query, ret.
  destruct (validate P createUserSchema (req_body req)) as [e|value] eqn:Hval;
    [by left|].
  destruct (prop "email" value) as [[| | | email |]|] eqn:Hemail; simpl;
    try (by left).
  destruct (user_findUnique_email db email) as [found|] eqn:Hfound; [by left|].
  destruct (prop "name" value) as [[| | | name |]|] eqn:Hname; simpl;
    try (by left).
  destruct (prop "password" value) as [[| | | password |]|] eqn:Hpassword; simpl;
    try (by left).
  destruct (opt_str_arg (prop "address" value)) as [address|] eqn:Haddress;
    [|by left].
  destruct (prop "role" value) as [[| | | role |]|] eqn:Hrole; simpl;
    try (by left).
  unfold user_create. simpl.
  destruct (users db !! user_seq db) eqn:Hfresh; [by left|].
  rewrite Hfound. simpl.
  right. by exists value, name, email, password, role, address.
Qed.

(** X11. [createUser], on a body that passes validation with an e-mail that
    no user has, stores the row under the next id and answers 201. The
    password column holds the password of the body as it is, not a hash,
    and the role column the role of the body. *)
Theorem createUser_stores_password_as_given
    (P : Platform) (env : Env) (req : Req) (db : DB) (value : jsval)
    (email : string) :
  validate P createUserSchema (req_body req) = inr value ->
  prop "email" value = Some (JStr email) ->
  user_findUnique_email db email = None ->
  users db !! user_seq db = None ->
  exists row,
    prop "password" (req_body req) = Some (JStr (user_password row)) /\
    prop "role" (req_body req) = Some (JStr (user_role row)) /\
    user_email row = email /\
    createUser P env req db =
      (with_new_user db row,
       Respond 201 (user_created (select_profile (user_seq db) row))).
Proof.
  intros Hval Hemail Hfree Hfresh.
  destruct (createUserSchema_value P _ _ Hval)
    as (name & email' & password & role & Hname & Hemail' & Hpassword0 &
        Hpassword & _ & Haddress & Hrole0 & Hrole & _).
  assert (email' = email) as -> by congruence.
  assert (exists address, opt_str_arg (prop "address" value) = Returns address)
    as [address Haddress'].
  { destruct Haddress as [-> | [a ->]]; by eexists. }
  exists {| user_name := name; user_email := email; user_password := password;
            user_address := address; user_role := role;
            user_createdAt := now env |}.
  do 3 (split; [done|]).
  unfold createUser, try_catch, bind, user_findUnique_email_arg, query, ret.
  rewrite Hval, Hemail. simpl. rewrite Hfree, Hname, Hpassword. simpl.
  rewrite Haddress', Hrole. unfold user_create. simpl.
  by rewrite Hfresh, Hfree.
Qed.

Lemma createUser_stores_password_as_given_witness :
  exists row,
    prop "password" (new_user_body "carol@example.com" "STORE_OWNER")
      = Some (JStr (user_password row)) /\
    prop "role" (new_user_body "carol@example.com" "STORE_OWNER")
      = Some (JStr (user_role row)) /\
    user_email row = "carol@example.com" /\
    createUser ref_platform ref_env
      (as_user 7 bob "" (new_user_body "carol@example.com" "STORE_OWNER")) ref_db =
      (with_new_user ref_db row,
       Respond 201 (user_created (select_profile (user_seq ref_db) row))).
Proof.
  eapply (createUser_stores_password_as_given ref_platform ref_env
            (as_user 7 bob "" (new_user_body "carol@example.com" "STORE_OWNER"))
            ref_db).
  - vm_compute. reflexivity.
  - vm_compute. reflexivity.
  - vm_compute. reflexivity.
  - vm_compute. reflexivity.
Defined.

(** X12. [createUser] keeps the e-mails of the user table distinct and never
    changes a row that is there; a body with an e-mail that a user has is
    answered 400 and leaves the database as it was. *)
Theorem createUser_keeps_emails_unique
    (P : Platform) (env : Env) (req : Req) (db : DB) :
  unique_emails (users db) ->
  unique_emails (users (createUser P env req db).1) /\
  (forall id u, users db !! id = Some u ->
                users (createUser P env req db).1 !! id = Some u) /\
  (forall value email,
     validate P createUserSchema (req_body req) = inr value ->
     prop "email" value = Some (JStr email) ->
     is_Some (user_findUnique_email db email) ->
     createUser P env req db =
       (db, Respond 400 (message "User already exists with this email"))).
Proof.
  intros Huniq. split; [|split].
  - destruct (createUser_cases P env req db)
      as [-> | (value & name & email & password & role & address & _ & _ &
                _ & _ & _ & _ & Hfree & _ & Hrun)]; [done|].
    simpl in Hrun. rewrite Hrun. simpl. by apply unique_emails_insert.
  - intros id u Hrow.
    destruct (createUser_cases P env req db)
      as [-> | (value & name & email & password & role & address & _ & _ &
                _ & _ & _ & _ & _ & Hfresh & Hrun)]; [done|].
    simpl in Hrun. rewrite Hrun. simpl.
    rewrite lookup_insert_ne; [done|]. intros <-. congruence.
  - intros value email Hval Hemail [found Hfound].
    unfold createUser, try_catch, bind, user_findUnique_email_arg, query, ret.
    by rewrite Hval, Hemail; simpl; rewrite Hfound.
Qed.

Lemma createUser_keeps_emails_unique_witness :
  createUser ref_platform ref_env
    (as_user 7 bob "" (new_user_body "alice@example.com" "ADMIN")) ref_db
  = (ref_db, Respond 400 (message "User already exists with this email")).
Proof.
  destruct (createUser_keeps_emails_unique ref_platform ref_env
              (as_user 7 bob "" (new_user_body "alice@example.com" "ADMIN"))
              ref_db unique_emails_ref_db) as (_ & _ & Htaken).
  eapply Htaken.
  - vm_compute. reflexivity.
  - vm_compute. reflexivity.
  - eexists. vm_compute. reflexivity.
Defined.

(** An optional string key after validation: absent from the body and from
    the value, or the same string in both. *)
Lemma optional_string (P : Platform) (schema : Schema) (input m : gmap string jsval)
    (k : string) (rules : list StringRule) (valid : option (list string)) :
  NoDup schema.*1 ->
  validate_keys P schema input input = inr m ->
  (k, optional (TString rules valid)) ∈ schema ->
  (input !! k = None /\ m !! k = None)
  \/ exists s, input !! k = Some (JStr s) /\ m !! k = Some (JStr s) /\
               match valid with
               | Some allowed => s ∈ allowed
               | None => s <> ""
               end.
Proof.
  intros Hnd Hval Hin.
  destruct (validate_keys_spec P schema input input m Hnd Hval k) as [_ Hkey].
  specialize (Hkey _ Hin). simpl in Hkey.
  destruct (input !! k) as [v|] eqn:Hk.
  - destruct Hkey as (v' & Hv & Hm).
    apply validate_value_string in Hv as (-> & s & -> & Hs).
    right. exists s. do 2 (split; [done|]).
    destruct valid; [done|]. by destruct Hs.
  - destruct Hkey as [_ Hm]. left. by rewrite Hm.
Qed.

(** What [updateUserSchema] lets through: each of the four keys absent or a
    string, as the body has it; a role that is given is one of the three. *)
Lemma updateUserSchema_value (P : Platform) (body value : jsval) :
  validate P updateUserSchema body = inr value ->
  (forall k, k ∈ ["name"; "email"; "address"; "role"] ->
     prop k value = prop k body /\
     (prop k value = None \/ exists s, prop k value = Some (JStr s) /\ s <> "")) /\
  (forall r, prop "role" body = Some r ->
     exists s, r = JStr s /\ s ∈ ["ADMIN"; "NORMAL_USER"; "STORE_OWNER"]).
Proof.
  intros Hval.
  apply validate_inr in Hval as (input & m & -> & -> & Hkeys & Hunknown).
  assert (Hnd : NoDup updateUserSchema.*1) by nodup_keys.
  pose proof (optional_string P _ _ _ "name" _ _ Hnd Hkeys ltac:(in_schema)) as Hname.
  pose proof (optional_string P _ _ _ "email" _ _ Hnd Hkeys ltac:(in_schema)) as Hemail.
  pose proof (optional_string P _ _ _ "address" _ _ Hnd Hkeys ltac:(in_schema)) as Haddr.
  pose proof (optional_string P _ _ _ "role" _ _ Hnd Hkeys ltac:(in_schema)) as Hrole.
  simpl in *. split.
  - intros k Hk.
    repeat (apply elem_of_cons in Hk as [-> | Hk]);
      [| | | | by apply elem_of_nil in Hk].
    + destruct Hname as [[-> ->] | (s & -> & -> & ?)]; eauto.
    + destruct Hemail as [[-> ->] | (s & -> & -> & ?)]; eauto.
    + destruct Haddr as [[-> ->] | (s & -> & -> & ?)]; eauto.
    + destruct Hrole as [[-> ->] | (s & -> & -> & Hs)]; [eauto|].
      split; [done|]. right. exists s. split; [done|].
      intros ->. repeat (apply elem_of_cons in Hs as [Hs | Hs]; [discriminate|]).
      by apply elem_of_nil in Hs.
  - intros r Hr.
    destruct Hrole as [[Hnone _] | (s & Hs & _ & Hallowed)]; [congruence|].
    exists s. split; [congruence|done].
Qed.

(** The row [updateUser] writes for a validated value. *)
Lemma update_user_data_returns (P : Platform) (body value : jsval) (u : UserRow) :
  validate P updateUserSchema body = inr value ->
  exists u',
    update_user_data value u = Returns u' /\
    user_password u' = user_password u /\
    user_createdAt u' = user_createdAt u /\
    user_email u' = match prop "email" value with
                    | Some (JStr e) => e
                    | _ => user_email u
                    end /\
    user_role u' = match prop "role" body with
                   | Some (JStr r) => r
                   | _ => user_role u
                   end.
Proof.
  intros Hval. destruct (updateUserSchema_value P _ _ Hval) as [Hkeys _].
  destruct (Hkeys "name" ltac:(in_schema)) as [_ Hname].
  destruct (Hkeys "email" ltac:(in_schema)) as [_ Hemail].
  destruct (Hkeys "address" ltac:(in_schema)) as [_ Haddr].
  destruct (Hkeys "role" ltac:(in_schema)) as [Hrole0 Hrole].
  unfold update_user_data. rewrite <- Hrole0.
  destruct Hname as [-> | (? & -> & _)];
    destruct Hemail as [-> | (? & -> & _)];
    destruct Haddr as [-> | (? & -> & _)];
    destruct Hrole as [-> | (? & -> & _)]; simpl; by eexists.
Qed.

(** [updateUser] either leaves the database as it was, or has replaced the
    row of the target by the row built from the validated value, whose
    e-mail is the old one or one that no row has. *)
Lemma updateUser_effect (P : Platform) (more : Z -> UserRow -> UserMore)
    (req : Req) (db : DB) :
  (updateUser P more req db).1 = db
  \/ exists target u u' value,
       parseInt (req_params_id req) = Some target /\
       users db !! target = Some u /\
       validate P updateUserSchema (req_body req) = inr value /\
       update_user_data value u = Returns u' /\
       (user_email u' = user_email u \/
        user_findUnique_email db (user_email u') = None) /\
       updateUser P more req db =
         (with_user db target u',
          Respond 200 (user_updated (select_updated target u' (more target u')))).
Proof.
  unfold updateUser, try_catch, bind, query, ret, user_findUnique_id.
  destruct (validate P updateUserSchema (req_body req)) as [e|value] eqn:Hval;
    [(left; reflexivity)|].
  destruct (parseInt (req_params_id req)) as [target|]; [|(left; reflexivity)].
  change (JNum <$> Some target) with (Some (JNum target)).
  destruct (int_arg (Some (JNum target))) as [z|] eqn:Hz; [|(left; reflexivity)].
  apply int_arg_returns in Hz as [[= <-] Hrange].
  destruct (users db !! target) as [u|] eqn:Hrow; [|(left; reflexivity)].
  simpl.
  destruct (truthy (prop "email" value)
            && differs_from (prop "email" value) (user_email u));
    [unfold user_findUnique_email_arg, query;
     destruct (str_arg (prop "email" value)) as [e|]; [|(left; reflexivity)];
     destruct (user_findUnique_email db e); [(left; reflexivity)|] | ];
    unfold user_update;
    rewrite (int_arg_int32 target Hrange), Hrow;
    (destruct (update_user_data value u) as [u'|] eqn:Hdata; [|(left; reflexivity)]);
    (destruct (String.eqb (user_email u') (user_email u)) eqn:Hsame;
     [apply String.eqb_eq in Hsame
     |destruct (user_findUnique_email db (user_email u')) eqn:Hfind;
      [(left; reflexivity)|]]);
    right; exists target, u, u', value; do 4 (split; [done|]); split; auto.
Qed.

Lemma update_user_data_keeps (value : jsval) (u u' : UserRow) :
  update_user_data value u = Returns u' ->
  user_password u' = user_password u /\ user_createdAt u' = user_createdAt u.
Proof.
  unfold update_user_data.
  destruct (data_string (user_name u) _); [|discriminate].
  destruct (data_string (user_email u) _); [|discriminate].
  destruct (data_opt_string _ _); [|discriminate].
  destruct (data_string (user_role u) _); [|discriminate].
  by intros [= <-].
Qed.

(** X13. [updateUser] keeps the e-mails of the user table distinct, keeps
    the set of user ids, and never changes the password or the creation
    time of a row; a new e-mail that another user has is answered 400
    "Email already exists" and nothing is written. *)
Theorem updateUser_keeps_emails_and_passwords
    (P : Platform) (more : Z -> UserRow -> UserMore) (req : Req) (db : DB) :
  unique_emails (users db) ->
  unique_emails (users (updateUser P more req db).1) /\
  (forall id,
     match users db !! id with
     | Some u =>
         exists u', users (updateUser P more req db).1 !! id = Some u' /\
                    user_password u' = user_password u /\
                    user_createdAt u' = user_createdAt u
     | None => users (updateUser P more req db).1 !! id = None
     end) /\
  (forall value target u e,
     validate P updateUserSchema (req_body req) = inr value ->
     parseInt (req_params_id req) = Some target -> int32 target ->
     users db !! target = Some u ->
     prop "email" value = Some (JStr e) -> e <> "" -> e <> user_email u ->
     is_Some (user_findUnique_email db e) ->
     updateUser P more req db = (db, Respond 400 (message "Email already exists"))).
Proof.
  intros Huniq. split; [|split].
  - destruct (updateUser_effect P more req db)
      as [-> | (target & u & u' & value & _ & Hrow & _ & _ & Hfree & ->)];
      [done|].
    simpl.
    assert (Hothers : forall k o, k <> target -> users db !! k = Some o ->
                                  user_email o <> user_email u').
    { intros k o Hne Hk Heq. destruct Hfree as [Hsame | Hfree].
      - apply Hne. apply (Huniq k target o u Hk Hrow). congruence.
      - unfold user_findUnique_email in Hfree. rewrite find_row_None in Hfree.
        apply Hfree in Hk. rewrite Heq, String.eqb_refl in Hk. discriminate. }
    intros i j u1 u2 Hi Hj He.
    apply lookup_insert_Some in Hi as [[<- <-] | [Hi' Hi]];
      apply lookup_insert_Some in Hj as [[<- <-] | [Hj' Hj]].
    + done.
    + exfalso. apply (Hothers j u2); [done..|]. by symmetry.
    + exfalso. by apply (Hothers i u1).
    + by apply (Huniq i j u1 u2).
  - intros id.
    destruct (updateUser_effect P more req db)
      as [-> | (target & u & u' & value & _ & Hrow & _ & Hdata & _ & ->)].
    + destruct (users db !! id) as [u|]; [|done]. by exists u.
    + simpl. apply update_user_data_keeps in Hdata.
      destruct (decide (id = target)) as [-> | Hne].
      * rewrite Hrow, lookup_insert_eq. by exists u'.
      * rewrite lookup_insert_ne by done.
        destruct (users db !! id) as [u0|]; [|done]. by exists u0.
  - intros value target u e Hval Htarget Hrange Hrow Hemail Hne Hdiff [found Hfound].
    unfold updateUser, try_catch, bind, query, ret, user_findUnique_id.
    rewrite Hval, Htarget.
    change (JNum <$> Some target) with (Some (JNum target)).
    rewrite (int_arg_int32 target Hrange), Hrow. simpl.
    rewrite Hemail. simpl.
    assert (He1 : String.eqb e "" = false) by (by apply String.eqb_neq).
    assert (He2 : String.eqb e (user_email u) = false) by (by apply String.eqb_neq).
    rewrite He1, He2. simpl.
    unfold user_findUnique_email_arg, query. simpl. by rewrite Hfound.
Qed.

(** Bob asks to give Alice his own e-mail. *)
Lemma updateUser_keeps_emails_and_passwords_witness :
  updateUser ref_platform ref_more
    (as_user 7 bob "42" (JObj {[ "email" := JStr "bob@example.com" ]})) ref_db
  = (ref_db, Respond 400 (message "Email already exists")).
Proof.
  destruct (updateUser_keeps_emails_and_passwords ref_platform ref_more
              (as_user 7 bob "42" (JObj {[ "email" := JStr "bob@example.com" ]}))
              ref_db unique_emails_ref_db) as (_ & _ & Htaken).
  eapply (Htaken _ 42 alice "bob@example.com").
  - vm_compute. reflexivity.
  - vm_compute. reflexivity.
  - unfold int32. lia.
  - vm_compute. reflexivity.
  - vm_compute. reflexivity.
  - discriminate.
  - discriminate.
  - eexists. vm_compute. reflexivity.
Defined.

(** X14. An update by [updateUser] that passes validation, for a target
    that has a row, with no new e-mail or one that no user has, is answered
    200; the role of the row becomes the role of the body when it gives
    one, and stays as it was when it gives none. *)
Theorem updateUser_sets_role
    (P : Platform) (more : Z -> UserRow -> UserMore) (req : Req) (db : DB)
    (value : jsval) (target : Z) (u : UserRow) :
  validate P updateUserSchema (req_body req) = inr value ->
  parseInt (req_params_id req) = Some target -> int32 target ->
  users db !! target = Some u ->
  (forall e, prop "email" value = Some (JStr e) -> e <> user_email u ->
             user_findUnique_email db e = None) ->
  exists u',
    updateUser P more req db =
      (with_user db target u',
       Respond 200 (user_updated (select_updated target u' (more target u')))) /\
    user_role u' = match prop "role" (req_body req) with
                   | Some (JStr r) => r
                   | _ => user_role u
                   end.
Proof.
  intros Hval Htarget Hrange Hrow Hfree.
  destruct (update_user_data_returns P _ _ u Hval)
    as (u' & Hdata & _ & _ & Hemail' & Hrole').
  exists u'. split; [|done].
  assert (Hothers :
    (if String.eqb (user_email u') (user_email u) then None
     else user_findUnique_email db (user_email u')) = None).
  { destruct (String.eqb (user_email u') (user_email u)) eqn:Hsame; [done|].
    apply String.eqb_neq in Hsame. rewrite Hemail' in Hsame |- *.
    destruct (prop "email" value) as [[| | | e |]|] eqn:He; try done.
    by apply Hfree. }
  assert (Hcheck :
    (if truthy (prop "email" value)
        && differs_from (prop "email" value) (user_email u)
     then user_findUnique_email_arg (prop "email" value)
     else ret None) db = (db, Returns None)).
  { destruct (updateUserSchema_value P _ _ Hval) as [Hkeys _].
    destruct (Hkeys "email" ltac:(in_schema)) as [_ [He | (e & He & Hne)]];
      rewrite He; [done|]. simpl.
    destruct (String.eqb e "") eqn:He1; [by apply String.eqb_eq in He1|].
    destruct (String.eqb e (user_email u)) eqn:He2; [done|]. simpl.
    apply String.eqb_neq in He2.
    unfold user_findUnique_email_arg, query. simpl.
    by rewrite (Hfree e He He2). }
  unfold updateUser, try_catch, bind, query, ret, user_findUnique_id.
  rewrite Hval, Htarget.
  change (JNum <$> Some target) with (Some (JNum target)).
  rewrite (int_arg_int32 target Hrange), Hrow. simpl.
  unfold ret in Hcheck. rewrite Hcheck.
  unfold user_update.
  by rewrite (int_arg_int32 target Hrange), Hrow, Hdata, Hothers.
Qed.

(** Bob makes Alice a store owner. *)
Lemma updateUser_sets_role_witness :
  exists u',
    updateUser ref_platform ref_more
      (as_user 7 bob "42" (JObj {[ "role" := JStr "STORE_OWNER" ]})) ref_db =
      (with_user ref_db 42 u',
       Respond 200 (user_updated (select_updated 42 u' (ref_more 42 u')))) /\
    user_role u' = "STORE_OWNER".
Proof.
  destruct (updateUser_sets_role ref_platform ref_more
              (as_user 7 bob "42" (JObj {[ "role" := JStr "STORE_OWNER" ]})) ref_db
              (JObj {[ "role" := JStr "STORE_OWNER" ]}) 42 alice)
    as (u' & Hrun & Hrole).
  - vm_compute. reflexivity.
  - vm_compute. reflexivity.
  - unfold int32. lia.
  - vm_compute. reflexivity.
  - intros e He. vm_compute in He. discriminate.
  - exists u'. split; [exact Hrun | exact Hrole].
Defined.

(** ** Changing the password *)

(** What [changePasswordSchema] lets through. *)
Lemma changePasswordSchema_value (P : Platform) (body value : jsval) :
  validate P changePasswordSchema body = inr value ->
  exists current new,
    prop "currentPassword" body = Some (JStr current) /\
    prop "currentPassword" value = Some (JStr current) /\
    prop "newPassword" body = Some (JStr new) /\
    prop "newPassword" value = Some (JStr new) /\
    strong_password new.
Proof.
  intros Hval.
  apply validate_inr in Hval as (input & m & -> & -> & Hkeys & Hunknown).
  assert (Hnd : NoDup changePasswordSchema.*1) by nodup_keys.
  destruct (validated_string P _ _ _ "currentPassword" _ Hnd Hkeys ltac:(in_schema))
    as (current & Hc0 & Hc & _).
  destruct (validated_string P _ _ _ "newPassword" _ Hnd Hkeys ltac:(in_schema))
    as (new & Hn0 & Hn & _ & Hrules).
  exists current, new. simpl. do 4 (split; [done|]).
  by apply (password_rules_strong P).
Qed.

(** X15. [changePassword] writes nothing unless [bcrypt.compare] accepts
    the current password of the body against the caller's stored one; what
    it then writes is the password column of the caller's own row, which
    becomes [bcrypt.hash(newPassword, 12)] for a new password that the
    schema's pattern accepts. No other column and no other row changes. *)
Theorem changePassword_changes_only_own_password
    (P : Platform) (bcrypt_compare : string -> string -> bool)
    (req : Req) (db : DB) :
  (changePassword P bcrypt_compare req db).1 = db
  \/ exists id u current new,
       (req_user req ≫= prop "id") = Some (JNum id) /\
       users db !! id = Some u /\
       prop "currentPassword" (req_body req) = Some (JStr current) /\
       bcrypt_compare current (user_password u) = true /\
       prop "newPassword" (req_body req) = Some (JStr new) /\
       strong_password new /\
       changePassword P bcrypt_compare req db =
         (with_user db id (with_password (bcrypt_hash P new 12) u),
          Respond 200 (message "Password changed successfully")).
Proof.
  unfold changePassword, try_catch, bind, query, ret, throw, user_findUnique_id.
  destruct (validate P changePasswordSchema (req_body req)) as [e|value] eqn:Hval;
    [by left|].
  destruct (changePasswordSchema_value P _ _ Hval)
    as (current & new & Hc0 & Hc & Hn0 & Hn & Hstrong).
  destruct (req_user_id req) as [callerId|] eqn:Hcaller; [|by left].
  destruct (int_arg callerId) as [id|] eqn:Hid; [|by left].
  apply int_arg_returns in Hid as [-> Hrange].
  destruct (users db !! id) as [u|] eqn:Hrow; [|by left].
  simpl. rewrite Hc. simpl.
  destruct (bcrypt_compare current (user_password u)) eqn:Hcmp; [|by left].
  simpl. rewrite Hn. simpl.
  unfold user_update. rewrite (int_arg_int32 id Hrange), Hrow.
  simpl. rewrite String.eqb_refl.
  right. exists id, u, current, new. split; [|done].
  unfold req_user_id in Hcaller.
  destruct (req_user req) as [[| | | |fields]|]; try discriminate;
    injection Hcaller as Hcaller; exact Hcaller.
Qed.

(** X16. When the body passes validation, the caller has a row and
    [bcrypt.compare] accepts the current password, [changePassword] answers
    200; afterwards the password column of the caller's row is the hash, at
    12 rounds, of the new password, the other columns of that row and every
    other row are as they were. *)
Theorem changePassword_succeeds
    (P : Platform) (bcrypt_compare : string -> string -> bool)
    (req : Req) (db : DB) (value ctx : jsval) (id : Z) (u : UserRow)
    (current new : string) :
  validate P changePasswordSchema (req_body req) = inr value ->
  prop "currentPassword" value = Some (JStr current) ->
  prop "newPassword" value = Some (JStr new) ->
  req_user req = Some ctx -> prop "id" ctx = Some (JNum id) -> int32 id ->
  users db !! id = Some u ->
  bcrypt_compare current (user_password u) = true ->
  changePassword P bcrypt_compare req db =
    (with_user db id
       {| user_name := user_name u; user_email := user_email u;
          user_password := bcrypt_hash P new 12;
          user_address := user_address u; user_role := user_role u;
          user_createdAt := user_createdAt u |},
     Respond 200 (message "Password changed successfully"))
  /\ (user_password <$> users (changePassword P bcrypt_compare req db).1 !! id)
     = Some (bcrypt_hash P new 12)
  /\ (forall k, k <> id ->
        users (changePassword P bcrypt_compare req db).1 !! k = users db !! k).
Proof.
  intros Hval Hc Hn Hctx Hid Hrange Hrow Hcmp.
  assert (Hrid : req_user_id req = Returns (Some (JNum id))).
  { unfold req_user_id. rewrite Hctx.
    destruct ctx; try discriminate. by rewrite Hid. }
  assert (Hrun : changePassword P bcrypt_compare req db =
    (with_user db id
       {| user_name := user_name u; user_email := user_email u;
          user_password := bcrypt_hash P new 12;
          user_address := user_address u; user_role := user_role u;
          user_createdAt := user_createdAt u |},
     Respond 200 (message "Password changed successfully"))).
  { unfold changePassword, try_catch, bind, query, ret, throw, user_findUnique_id.
    rewrite Hval, Hrid, (int_arg_int32 id Hrange), Hrow. simpl.
    rewrite Hc. simpl. rewrite Hcmp. simpl. rewrite Hn. simpl.
    unfold user_update.
    rewrite (int_arg_int32 id Hrange), Hrow. simpl.
    by rewrite String.eqb_refl. }
  rewrite Hrun. split; [done|]. simpl. split.
  - by rewrite lookup_insert_eq.
  - intros k Hk. by rewrite lookup_insert_ne.
Qed.

(** Alice changes her password. *)
Lemma changePassword_succeeds_witness :
  users ref_db !! 42 = Some alice /\
  (changePassword ref_platform ref_compare
     (as_user 42 alice "" (change_body "Passw0rd!" "N3w&better")) ref_db).2
  = Respond 200 (message "Password changed successfully") /\
  (user_password <$>
     users (changePassword ref_platform ref_compare
              (as_user 42 alice "" (change_body "Passw0rd!" "N3w&better"))
              ref_db).1 !! 42)
  = Some "$12$N3w&better".
Proof.
  split; [reflexivity|].
  destruct (changePassword_succeeds ref_platform ref_compare
              (as_user 42 alice "" (change_body "Passw0rd!" "N3w&better")) ref_db
              (change_body "Passw0rd!" "N3w&better") (select_auth 42 alice) 42 alice
              "Passw0rd!" "N3w&better")
    as (Hrun & Hpassword & _).
  - vm_compute. reflexivity.
  - vm_compute. reflexivity.
  - vm_compute. reflexivity.
  - reflexivity.
  - reflexivity.
  - unfold int32. lia.
  - vm_compute. reflexivity.
  - vm_compute. reflexivity.
  - split; [by rewrite Hrun | exact Hpassword].
Defined.

(** ** Deleting a store or a rating *)

Lemma str_strict_eq_true (s : string) (v : option jsval) :
  str_strict_eq s v = true <-> v = Some (JStr s).
Proof.
  unfold str_strict_eq. destruct v as [[| | | r |]|]; try (split; discriminate).
  rewrite String.eqb_eq. split; [by intros -> | by intros [= ->]].
Qed.

Lemma num_strict_eq_true (n : Z) (v : option jsval) :
  num_strict_eq n v = true <-> v = Some (JNum n).
Proof.
  unfold num_strict_eq. destruct v as [[| | z | |]|]; try (split; discriminate).
  rewrite Z.eqb_eq. split; [by intros -> | by intros [= ->]].
Qed.

Lemma req_user_id_returns (req : Req) (v : option jsval) :
  req_user_id req = Returns v -> (req_user req ≫= prop "id") = v.
Proof.
  unfold req_user_id.
  destruct (req_user req) as [[| | | |fields]|]; try discriminate;
    by intros [= <-].
Qed.

Lemma req_user_role_returns (req : Req) (v : option jsval) :
  req_user_role req = Returns v -> (req_user req ≫= prop "role") = v.
Proof.
  unfold req_user_role.
  destruct (req_user req) as [[| | | |fields]|]; try discriminate;
    by intros [= <-].
Qed.

(** X17. [deleteStore] deletes a store only when it exists and the caller
    is an ADMIN or its owner; it then answers 200 and leaves the user table
    as it was. An id that is not a number is answered 400 "Invalid store
    ID"; a caller who is neither ADMIN nor the owner is answered 403; both
    leave the database as it was. *)
Theorem deleteStore_only_by_owner_or_admin
    (on_delete_store : Z -> gmap Z RatingRow -> option (gmap Z RatingRow))
    (req : Req) (db : DB) :
  ((deleteStore on_delete_store req db).1 = db
   \/ exists target store,
        parseInt (req_params_id req) = Some target /\
        stores db !! target = Some store /\
        ((req_user req ≫= prop "role") = Some (JStr "ADMIN") \/
         (req_user req ≫= prop "id") = Some (JNum (store_ownerId store))) /\
        stores (deleteStore on_delete_store req db).1 = delete target (stores db) /\
        users (deleteStore on_delete_store req db).1 = users db /\
        (deleteStore on_delete_store req db).2 =
          Respond 200 (message "Store deleted successfully"))
  /\ (parseInt (req_params_id req) = None ->
      deleteStore on_delete_store req db =
        (db, Respond 400 (message "Invalid store ID")))
  /\ (forall target store role callerId,
        parseInt (req_params_id req) = Some target -> int32 target ->
        stores db !! target = Some store ->
        req_user_role req = Returns role -> role <> Some (JStr "ADMIN") ->
        req_user_id req = Returns callerId ->
        callerId <> Some (JNum (store_ownerId store)) ->
        deleteStore on_delete_store req db =
          (db, Respond 403 (message "You can only delete your own stores"))).
Proof.
  split; [|split].
  - unfold deleteStore, try_catch, bind, store_findUnique, query, ret.
    destruct (parseInt (req_params_id req)) as [target|]; [|by left].
    destruct (int_arg (Some (JNum target))) as [z|] eqn:Hz; [|by left].
    apply int_arg_returns in Hz as [[= <-] Hrange].
    destruct (stores db !! target) as [store|] eqn:Hstore; [|by left].
    destruct (req_user_role req) as [role|] eqn:Hrole; [|by left].
    apply req_user_role_returns in Hrole.
    destruct (str_strict_eq "ADMIN" role) eqn:Hadmin; simpl.
    + apply str_strict_eq_true in Hadmin.
      unfold store_delete. rewrite (int_arg_int32 target Hrange), Hstore.
      destruct (on_delete_store target (ratings db)) as [rt|]; [|by left].
      right. exists target, store. do 2 (split; [done|]).
      split; [left; congruence|done].
    + destruct (req_user_id req) as [callerId|] eqn:Hcaller; [|by left].
      apply req_user_id_returns in Hcaller.
      destruct (num_strict_eq (store_ownerId store) callerId) eqn:Hown; simpl;
        [|by left].
      apply num_strict_eq_true in Hown.
      unfold store_delete. rewrite (int_arg_int32 target Hrange), Hstore.
      destruct (on_delete_store target (ratings db)) as [rt|]; [|by left].
      right. exists target, store. do 2 (split; [done|]).
      split; [right; congruence|done].
  - intros Hnan. unfold deleteStore, try_catch. by rewrite Hnan.
  - intros target store role callerId Htarget Hrange Hstore Hrole Hnot Hcaller Hother.
    unfold deleteStore, try_catch, bind, store_findUnique, query, ret.
    rewrite Htarget, (int_arg_int32 target Hrange), Hstore, Hrole.
    destruct (str_strict_eq "ADMIN" role) eqn:Hadmin;
      [by apply str_strict_eq_true in Hadmin|].
    simpl. rewrite Hcaller.
    destruct (num_strict_eq (store_ownerId store) callerId) eqn:Hown;
      [by apply num_strict_eq_true in Hown|].
    done.
Qed.

(** X18. [deleteRating] deletes a rating only when it exists and the caller
    is its author or an ADMIN; it then removes that row alone and answers
    200. A caller who is neither is answered 403 and nothing is written. *)
Theorem deleteRating_only_by_author_or_admin (req : Req) (db : DB) :
  ((deleteRating req db).1 = db
   \/ exists target r,
        parseInt (req_params_id req) = Some target /\
        ratings db !! target = Some r /\
        ((req_user req ≫= prop "id") = Some (JNum (rating_userId r)) \/
         (req_user req ≫= prop "role") = Some (JStr "ADMIN")) /\
        deleteRating req db =
          (with_ratings db (delete target (ratings db)) (rating_seq db),
           Respond 200 (message "Rating deleted successfully")))
  /\ (forall target r role callerId,
        parseInt (req_params_id req) = Some target -> int32 target ->
        ratings db !! target = Some r ->
        req_user_id req = Returns callerId ->
        callerId <> Some (JNum (rating_userId r)) ->
        req_user_role req = Returns role -> role <> Some (JStr "ADMIN") ->
        deleteRating req db =
          (db, Respond 403 (message "You can only delete your own ratings"))).
Proof.
  split.
  - unfold deleteRating, try_catch, bind, rating_findUnique_id, query, ret.
    destruct (parseInt (req_params_id req)) as [target|]; [|by left].
    change (JNum <$> Some target) with (Some (JNum target)).
    destruct (int_arg (Some (JNum target))) as [z|] eqn:Hz; [|by left].
    apply int_arg_returns in Hz as [[= <-] Hrange].
    destruct (ratings db !! target) as [r|] eqn:Hrow; [|by left].
    destruct (req_user_id req) as [callerId|] eqn:Hcaller; [|by left].
    apply req_user_id_returns in Hcaller.
    destruct (num_strict_eq (rating_userId r) callerId) eqn:Hown; simpl.
    + apply num_strict_eq_true in Hown.
      unfold rating_delete. rewrite (int_arg_int32 target Hrange), Hrow.
      right. exists target, r. do 2 (split; [done|]).
      split; [left; congruence|done].
    + destruct (req_user_role req) as [role|] eqn:Hrole; [|by left].
      apply req_user_role_returns in Hrole.
      destruct (str_strict_eq "ADMIN" role) eqn:Hadmin; simpl; [|by left].
      apply str_strict_eq_true in Hadmin.
      unfold rating_delete. rewrite (int_arg_int32 target Hrange), Hrow.
      right. exists target, r. do 2 (split; [done|]).
      split; [right; congruence|done].
  - intros target r role callerId Htarget Hrange Hrow Hcaller Hother Hrole Hnot.
    unfold deleteRating, try_catch, bind, rating_findUnique_id, query, ret.
    rewrite Htarget.
    change (JNum <$> Some target) with (Some (JNum target)).
    rewrite (int_arg_int32 target Hrange), Hrow, Hcaller.
    destruct (num_strict_eq (rating_userId r) callerId) eqn:Hown;
      [by apply num_strict_eq_true in Hown|].
    simpl. rewrite Hrole.
    destruct (str_strict_eq "ADMIN" role) eqn:Hadmin;
      [by apply str_strict_eq_true in Hadmin|].
    done.
Qed.

(** Alice asks for the deletion of Bob's store 3, and of her own rating 1,
    which Bob, an ADMIN, may delete as well. *)
Example deleteStore_deleteRating_examples :
  deleteStore ref_on_delete_store (as_user 42 alice "3" (JObj ∅)) ref_db
    = (ref_db, Respond 403 (message "You can only delete your own stores"))
  /\ response_status
       (deleteStore ref_on_delete_store (as_user 7 bob "3" (JObj ∅)) ref_db).2
     = Some 200
  /\ ratings (deleteRating (as_user 42 alice "1" (JObj ∅)) ref_db).1 = ∅
  /\ ratings (deleteRating (as_user 7 bob "1" (JObj ∅)) ref_db).1 = ∅.
Proof. vm_compute. done. Qed.

(** ** Pagination *)

(** X19. For a positive limit and a total that is not negative, the number
    of pages is the least number of pages of that size that hold the total,
    and a page from 1 on skips fewer rows than the total exactly when it is
    one of them. *)
Theorem pagination_covers_total (page limit : option string) (total : Z) :
  0 <= total -> 0 < limit_of limit ->
  (pages_of total (limit_of limit) - 1) * limit_of limit < total
    <= pages_of total (limit_of limit) * limit_of limit
  /\ (1 <= page_of page ->
      (skip_of (page_of page) (limit_of limit) < total
       <-> page_of page <= pages_of total (limit_of limit))).
Proof.
  intros Htotal Hlimit. unfold pages_of, skip_of.
  pose proof (Z.div_mod (- total) (limit_of limit) ltac:(lia)) as Hdiv.
  pose proof (Z.mod_pos_bound (- total) (limit_of limit) Hlimit) as Hmod.
  set (q := (- total) / limit_of limit) in *.
  set (r := (- total) mod limit_of limit) in *.
  set (l := limit_of limit) in *.
  split; [nia|]. intros Hpage. split; intros H; nia.
Qed.

(** 25 rows in pages of 3: nine pages; page 9 has rows, page 10 has none. *)
Lemma pagination_covers_total_witness :
  pages_of 25 (limit_of (Some "3")) = 9
  /\ skip_of (page_of (Some "9")) (limit_of (Some "3")) < 25
  /\ ~ skip_of (page_of (Some "10")) (limit_of (Some "3")) < 25.
Proof.
  destruct (pagination_covers_total (Some "9") (Some "3") 25) as [Hpages H9];
    [lia | vm_compute; reflexivity |].
  destruct (pagination_covers_total (Some "10") (Some "3") 25) as [_ H10];
    [lia | vm_compute; reflexivity |].
  split; [vm_compute; reflexivity|]. split.
  - apply H9; vm_compute; discriminate.
  - intros H. apply H10 in H; [|vm_compute; discriminate].
    vm_compute in H. by apply H.
Defined.

(** ** Registration, then login *)



